(** * langgraph-cua: the computer-use agent loop, embedded and verified

    A shallow embedding of the Python sources

      - [langgraph_cua/nodes/call_model.py]
      - [langgraph_cua/hyperbrowser/utils.py]
      - [langgraph_cua/hyperbrowser/graph.py]
      - [langgraph_cua/hyperbrowser/nodes/call_model.py]
      - [langgraph_cua/hyperbrowser/nodes/take_browser_action.py]

    Python values are a small universe [pyval]; dictionaries are finite maps
    keyed by strings; exceptions are an error type; the awaited calls to the
    session provider, the browser driver and the model are events appended
    to a trace, answered by an environment record. *)

From Stdlib Require Import ZArith String List Lia.
From stdpp Require Import base option list strings gmap.

Local Open Scope string_scope.
Local Open Scope Z_scope.
Local Open Scope list_scope.

(** ** Python values *)

Module Py.

Local Set Warnings "-register-all".

Inductive pyval : Type :=
| PNone
| PBool (b : bool)
| PInt (z : Z)
| PStr (s : string)
| PList (l : list pyval)
| PDict (d : gmap string pyval).

Abbreviation dict := (gmap string pyval).

(** [bool(v)]: what [not v] and [if v] test. *)
Definition truthy (v : pyval) : bool :=
  match v with
  | PNone => false
  | PBool b => b
  | PInt z => negb (z =? 0)
  | PStr s => negb (String.eqb s "")
  | PList l => match l with [] => false | _ => true end
  | PDict d => negb (bool_decide (d = ∅))
  end.

(** [v == "s"] for a string literal [s]. *)
Definition eq_str (v : pyval) (s : string) : bool :=
  match v with
  | PStr s' => String.eqb s' s
  | _ => false
  end.

(** [d.get(k)]: [None] when the key is absent. *)
Definition get (d : dict) (k : string) : pyval :=
  default PNone (d !! k).

(** [d.get(k, dflt)]. *)
Definition get_or (d : dict) (k : string) (dflt : pyval) : pyval :=
  default dflt (d !! k).

(** [Optional[str]] as a Python value. *)
Definition of_opt_str (o : option string) : pyval :=
  match o with Some s => PStr s | None => PNone end.

(** Truthiness of an [Optional[str]]: [None] and [""] are falsy. *)
Definition opt_truthy (o : option string) : bool := truthy (of_opt_str o).

Inductive exn : Type :=
| ValueError (msg : string)
| KeyError (key : string)
| IndexError
| AttributeError
| TypeError
| AssertionError (msg : string)
| ExternalError (who : string).

Inductive result (A : Type) : Type :=
| Ok (a : A)
| Raise (e : exn).
Arguments Ok {A} a.
Arguments Raise {A} e.

Definition is_ok {A} (r : result A) : bool :=
  match r with Ok _ => true | Raise _ => false end.

Definition rbind {A B} (r : result A) (k : A -> result B) : result B :=
  match r with Ok a => k a | Raise e => Raise e end.

(** [v.get(k)] and [v.get(k, dflt)] on an arbitrary value: only
    dictionaries have [get]. *)
Definition dyn_get (v : pyval) (k : string) : result pyval :=
  match v with
  | PDict d => Ok (get d k)
  | _ => Raise AttributeError
  end.

Definition dyn_get_or (v : pyval) (k : string) (dflt : pyval) : result pyval :=
  match v with
  | PDict d => Ok (get_or d k dflt)
  | _ => Raise AttributeError
  end.

(** [for x in v]: the items a loop over [v] visits.  A dictionary yields
    its keys, a string its characters; the other values are not
    iterable. *)
Definition iter (v : pyval) : result (list pyval) :=
  match v with
  | PList l => Ok l
  | PDict d => Ok (PStr <$> (map_to_list d).*1)
  | PStr s => Ok ((fun c => PStr (String c EmptyString)) <$> list_ascii_of_string s)
  | _ => Raise TypeError
  end.

End Py.
Import Py.

(** ** Messages *)

(** An entry of [AIMessage.tool_calls]. *)
Record ToolCall : Type := {
  tc_name : string;
  tc_args : dict;
  tc_id : option string;
}.

(** A conversation message, seen through the attribute reads of the source:
    [msg_type] is [getattr(m, "type", None)], [additional_kwargs] is
    [getattr(m, "additional_kwargs", None)], [tool_calls] is
    [getattr(m, "tool_calls", [])], and [response_metadata] is [None] when
    [hasattr(m, "response_metadata")] is false. *)
Record Message : Type := {
  msg_type : option string;
  content : pyval;
  additional_kwargs : option dict;
  tool_calls : list ToolCall;
  response_metadata : option dict;
  tool_call_id : pyval;
}.

Definition has_type (m : Message) (t : string) : bool :=
  match msg_type m with
  | Some t' => String.eqb t' t
  | None => false
  end.

(** [messages[-1] if messages else None]. *)
Definition last_message (messages : list Message) : option Message :=
  last messages.

(** [messages[-2]], defined when [len(messages) >= 2]. *)
Definition second_to_last (messages : list Message) : option Message :=
  match rev messages with
  | _ :: m :: _ => Some m
  | _ => None
  end.

(** ** Collaborators, events and the effect monad *)

(** Handles of the browser driver.  A browser owns contexts, a context owns
    pages: [browser.contexts[0].pages[0]]. *)
Abbreviation Page := nat (only parsing).
Abbreviation Playwright := nat (only parsing).

Record Browser : Type := {
  contexts : list (list Page);
}.

(** [SessionDetail] of the session provider, by the attributes read. *)
Record SessionDetail : Type := {
  id : string;
  ws_endpoint : option string;
  live_url : option string;
}.

(** An item of the list handed to the model: a message object, or the
    [{"role": "system", "content": ...}] dictionary built from a prompt. *)
Inductive Input : Type :=
| InMsg (m : Message)
| InDict (d : pyval).

(** Everything the nodes do to the outside world, in the order done. *)
Inductive Event : Type :=
| EvSessionGet (api_key session_id : string)
| EvSessionCreate (api_key : string) (solve_captchas : bool) (width height : Z)
| EvPlaywrightStart
| EvConnect (endpoint : string)
| EvSetViewport (page : Page) (width height : Z)
| EvStreamWrite (stream_url : option string)
| EvPrint (what : string)
| EvScreenshot (page : Page)
| EvComputerCall (page : Page) (tool_output : pyval)
| EvFunctionCall (page : Page) (tool_call : ToolCall)
| EvSleep (seconds : Z)
| EvInvoke (input : list Input) (previous_response_id : pyval) (tools : list pyval).

(** The collaborators.  Each answers from the history so far, so that a
    provider or a model may answer the same request differently over time.
    [handle_computer_call], [handle_function_tool_call] and the tool list
    [hb_tools] live in [hyperbrowser/nodes/tools.py]; [page_opened] is the
    driver reporting a page opened while a call was awaited. *)
Record Env : Type := {
  getenv_HYPERBROWSER_API_KEY : option string;
  sessions_get : list Event -> string -> string -> result SessionDetail;
  sessions_create : list Event -> string -> result SessionDetail;
  playwright_start : list Event -> result Playwright;
  connect_over_cdp : list Event -> string -> result Browser;
  set_viewport_size : list Event -> Page -> result unit;
  screenshot : list Event -> Page -> result string;
  b64encode : string -> string;
  ainvoke : list Event -> list Input -> pyval -> list pyval -> result Message;
  handle_computer_call : list Event -> Page -> pyval -> result unit;
  handle_function_tool_call : list Event -> Page -> ToolCall -> result (option Message);
  hb_tools : list pyval;
  page_opened : list Event -> option Page;
}.

Module Eff.

(** The state threaded through a node: the trace, and the variable
    [page] of [take_browser_action] once [handle_page_event] has been
    registered on the context ([None] before that).  Between two
    executions of [take_browser_action] the variable is dead: the node
    binds it afresh on entry and [call_model] never reads it. *)
Record St : Type := {
  trace : list Event;
  page_var : option Page;
}.

Definition M (A : Type) : Type := St -> result A * St.

Definition ret {A} (a : A) : M A := fun s => (Ok a, s).

Definition bind {A B} (m : M A) (k : A -> M B) : M B :=
  fun s => match m s with
           | (Ok a, s') => k a s'
           | (Raise e, s') => (Raise e, s')
           end.

Definition raise {A} (e : exn) : M A := fun s => (Raise e, s).

Definition lift {A} (r : result A) : M A := fun s => (r, s).

(** A synchronous effect: console output, the stream writer. *)
Definition emit (ev : Event) : M unit :=
  fun s => (Ok tt, {| trace := trace s ++ [ev]; page_var := page_var s |}).

(** [handle_page_event]: runs when the driver reports a new page, and
    only changes anything once registered.  Its console line is written
    from the driver's callback and is not part of the trace. *)
Definition handle_page_event (opened : list Event -> option Page) (s : St) : St :=
  match page_var s, opened (trace s) with
  | Some _, Some newPage => {| trace := trace s; page_var := Some newPage |}
  | _, _ => s
  end.

(** An awaited call: the request is logged, the collaborator answers from
    the history before the request, and page events are delivered while
    the caller is suspended. *)
Definition await {A} (opened : list Event -> option Page)
    (ev : Event) (answer : list Event -> result A) : M A :=
  fun s => (answer (trace s),
            handle_page_event opened
              {| trace := trace s ++ [ev]; page_var := page_var s |}).

Definition read_page : M Page :=
  fun s => match page_var s with
           | Some p => (Ok p, s)
           | None => (Raise (AssertionError "page is not bound"), s)
           end.

Definition bind_page (p : Page) : M unit :=
  fun s => (Ok tt, {| trace := trace s; page_var := Some p |}).

(** [x ← m; k] and [m;; k] are stdpp's notations for [mbind]. *)
#[export] Instance M_ret : MRet M := @ret.
#[export] Instance M_bind : MBind M := fun A B k m => bind m k.

(** A [for] loop that threads one variable through its body. *)
Fixpoint for_each {A B} (body : B -> A -> M B) (l : list A) (acc : B) : M B :=
  match l with
  | [] => mret acc
  | x :: l' => acc' ← body acc x; for_each body l' acc'
  end.

Definition initial : St := {| trace := []; page_var := None |}.

End Eff.
Import Eff.

(** ** The graph state *)

(** [CUAState]: a field is [None] when [state.get] finds nothing (or finds
    [None]); [messages] is [state.get("messages", [])]. *)
Record CUAState : Type := {
  messages : list Message;
  session_id : option string;
  stream_url : option string;
  playwright : option Playwright;
  browser : option Browser;
  current_page : option Page;
}.

(** [m.response_metadata["id"]], guarded by [hasattr]. *)
Definition metadata_id (m : Message) : result pyval :=
  match response_metadata m with
  | Some d =>
      match d !! "id" with
      | Some v => Ok v
      | None => Raise (KeyError "id")
      end
  | None => Ok PNone
  end.

(** [last_message and getattr(last_message, "type", None) == t]. *)
Definition last_has_type (msgs : list Message) (t : string) : bool :=
  match last_message msgs with
  | Some m => has_type m t
  | None => false
  end.

(** The test both model nodes run on a tool turn:
    [len(messages) >= 2 and getattr(messages[-2], "type", None) == "ai"
     and hasattr(messages[-2], "response_metadata")], and then
    [messages[-2].response_metadata["id"]]; [None] when the test fails. *)
Definition previous_ai_token (msgs : list Message) : result pyval :=
  match second_to_last msgs with
  | Some m2 => if has_type m2 "ai" then metadata_id m2 else Ok PNone
  | None => Ok PNone
  end.

(** The [elif] of the hyperbrowser model node: the last message is an
    assistant message with response metadata, and then
    [last_message.response_metadata["id"]]; [None] otherwise. *)
Definition last_ai_token (msgs : list Message) : result pyval :=
  match last_message msgs with
  | Some m => if has_type m "ai" then metadata_id m else Ok PNone
  | None => Ok PNone
  end.

(** [v is None]. *)
Definition is_none (v : pyval) : bool :=
  match v with PNone => true | _ => false end.

(** [v is False]. *)
Definition is_false (v : pyval) : bool :=
  match v with PBool false => true | _ => false end.

(** ** [nodes/call_model.py] *)

Module Nodes.

(** [get_openai_env_from_state_env]: three comparisons and no final
    [else]; a Python function that runs off its end returns [None]. *)
Definition get_openai_env_from_state_env (env : pyval) : result pyval :=
  if eq_str env "web" then Ok (PStr "browser")
  else if eq_str env "ubuntu" then Ok (PStr "ubuntu")
  else if eq_str env "windows" then Ok (PStr "windows")
  else Ok PNone.

Definition DEFAULT_DISPLAY_WIDTH : Z := 1024.
Definition DEFAULT_DISPLAY_HEIGHT : Z := 768.

(** The members of [Provider] ([types.py]). *)
Inductive Provider : Type := ProviderScrapybara | ProviderHyperbrowser.

(** The configuration dictionary returned by
    [get_configuration_with_defaults], by the keys the node reads.
    [provider] is [None] when the entry is no member of [Provider];
    [prompt] is a string, a ready system message, or absent. *)
Inductive Prompt : Type :=
| PromptStr (s : string)
| PromptMsg (m : Message).

Record Configuration : Type := {
  provider : option Provider;
  environment : pyval;
  zdr_enabled : pyval;
  prompt : option Prompt;
  session_params : pyval;
}.

Definition entries (l : list (string * pyval)) : pyval :=
  PDict (list_to_map l).

Definition default_screen : pyval :=
  entries [("width", PInt DEFAULT_DISPLAY_WIDTH);
           ("height", PInt DEFAULT_DISPLAY_HEIGHT)].

Definition computer_use_preview (w h env : pyval) : pyval :=
  entries [("type", PStr "computer_use_preview");
           ("display_width", w);
           ("display_height", h);
           ("environment", env)].

Definition function_tool (name description : string)
    (properties : pyval) (required : list pyval) : pyval :=
  entries [("type", PStr "function");
           ("function",
            entries [("name", PStr name);
                     ("description", PStr description);
                     ("parameters",
                      entries [("type", PStr "object");
                               ("properties", properties);
                               ("required", PList required)])])].

(** [get_available_tools(configuration)]. *)
Definition get_available_tools (c : Configuration) : result (list pyval) :=
  match provider c with
  | Some ProviderScrapybara =>
      rbind (get_openai_env_from_state_env (environment c)) (fun env =>
      Ok [computer_use_preview (PInt DEFAULT_DISPLAY_WIDTH)
            (PInt DEFAULT_DISPLAY_HEIGHT) env])
  | Some ProviderHyperbrowser =>
      rbind (if truthy (session_params c)
             then dyn_get_or (session_params c) "screen" default_screen
             else Ok default_screen) (fun screen_config =>
      rbind (dyn_get_or screen_config "width" (PInt DEFAULT_DISPLAY_WIDTH)) (fun w =>
      rbind (dyn_get_or screen_config "height" (PInt DEFAULT_DISPLAY_HEIGHT)) (fun h =>
      Ok [computer_use_preview w h (PStr "browser");
          function_tool "go_to_url"
            "Navigate to a URL. Can be used when on a blank page to go to a specific URL or search engine."
            (entries [("url",
                       entries [("type", PStr "string");
                                ("description",
                                 PStr "The fully qualified URL to navigate to")])])
            [PStr "url"];
          function_tool "get_current_url" "Get the current URL"
            (PDict ∅) []])))
  | None => Raise (ValueError "Unknown provider")
  end.

(** [_prompt_to_sys_message]. *)
Definition _prompt_to_sys_message (p : option Prompt) : option Input :=
  match p with
  | None => None
  | Some (PromptStr s) =>
      Some (InDict (entries [("role", PStr "system"); ("content", PStr s)]))
  | Some (PromptMsg m) => Some (InMsg m)
  end.

Section WithEnv.
Context (E : Env).

(** [call_model(state, config)]; the returned update has the single
    key [messages], holding the model's reply. *)
Definition call_model (state : CUAState) (configuration : Configuration)
    : M Message :=
  let zdr := zdr_enabled configuration in
  let prompt := _prompt_to_sys_message (prompt configuration) in
  let msgs := messages state in
  let tool_turn := last_has_type msgs "tool" && is_false zdr in
  previous_response_id ← lift (
    if tool_turn then previous_ai_token msgs else Ok PNone);
  tools ← lift (get_available_tools configuration);
  let invoke input :=
    await (page_opened E) (EvInvoke input previous_response_id tools)
      (fun h => ainvoke E h input previous_response_id tools) in
  if tool_turn then
    if is_none previous_response_id then
      raise (ValueError "Cannot process tool message without a previous_response_id")
    else
      invoke (InMsg <$> option_list (last_message msgs))
  else
    match prompt with
    | None => invoke (InMsg <$> msgs)
    | Some p => invoke (p :: (InMsg <$> msgs))
    end.

End WithEnv.

End Nodes.

(** ** [hyperbrowser/] *)

Module Hyperbrowser.

(** *** [utils.py] *)

Definition DEFAULT_DISPLAY_WIDTH : Z := 1024.
Definition DEFAULT_DISPLAY_HEIGHT : Z := 800.

Definition missing_api_key : exn :=
  ValueError "Hyperbrowser API key not provided. Please provide one in the configurable fields, or set it as an environment variable (HYPERBROWSER_API_KEY)".

(** [get_hyperbrowser_client]: the client is known by its key. *)
Definition get_hyperbrowser_client (api_key : option string) : result string :=
  match api_key with
  | Some k => if opt_truthy api_key then Ok k else Raise missing_api_key
  | None => Raise missing_api_key
  end.

(** [all(output.get("type") == "computer_call" for output in l)]: stops
    at the first item that fails the test, and raises on an item that
    has no [get]. *)
Fixpoint all_computer_call (l : list pyval) : result bool :=
  match l with
  | [] => Ok true
  | output :: l' =>
      rbind (dyn_get output "type") (fun t =>
      if eq_str t "computer_call" then all_computer_call l' else Ok false)
  end.

(** [is_computer_tool_call]. *)
Definition is_computer_tool_call (tool_outputs : pyval) : result bool :=
  match tool_outputs with
  | PList l => if truthy tool_outputs then all_computer_call l else Ok false
  | _ => Ok false
  end.

(** The configuration [init_or_load] reads its key from. *)
Record RunnableConfig : Type := {
  hyperbrowser_api_key : option string;
}.

Section WithEnv.
Context (E : Env).

(** [client.sessions.create(params=CreateSessionParams(solve_captchas=True,
    screen=ScreenConfig(width=..., height=...)))]. *)
Definition create_session (client : string) : M SessionDetail :=
  await (page_opened E)
    (EvSessionCreate client true DEFAULT_DISPLAY_WIDTH DEFAULT_DISPLAY_HEIGHT)
    (fun h => sessions_create E h client).

(** The tail both loaders share: [sessions.get] when [session_id] is
    truthy, [sessions.create] otherwise. *)
Definition get_or_create (client : string) (inputs : CUAState)
    : M SessionDetail :=
  match session_id inputs with
  | Some sid =>
      if truthy (PStr sid) then
        await (page_opened E) (EvSessionGet client sid)
          (fun h => sessions_get E h client sid)
      else create_session client
  | None => create_session client
  end.

(** [init_or_load(inputs, config)]. *)
Definition init_or_load (inputs : CUAState) (config : RunnableConfig)
    : M SessionDetail :=
  if negb (opt_truthy (hyperbrowser_api_key config)) then raise missing_api_key
  else
    client ← lift (get_hyperbrowser_client (hyperbrowser_api_key config));
    get_or_create client inputs.

(** [init_or_load_without_config(inputs)]. *)
Definition init_or_load_without_config (inputs : CUAState) : M SessionDetail :=
  client ← lift (get_hyperbrowser_client (getenv_HYPERBROWSER_API_KEY E));
  get_or_create client inputs.

End WithEnv.

(** *** [graph.py]: the two conditional edges *)

Inductive Node : Type :=
| call_model_node
| take_browser_action_node
| END.

(** [take_action_or_end]. *)
Definition take_action_or_end (state : CUAState) : result Node :=
  match last_message (messages state) with
  | None => Ok END
  | Some last =>
      match additional_kwargs last with
      | None => Ok END
      | Some kwargs =>
          if negb (truthy (PDict kwargs)) then Ok END
          else
            let tool_outputs := get kwargs "tool_outputs" in
            let calls := tool_calls last in
            rbind (is_computer_tool_call tool_outputs) (fun computer =>
            if negb computer && (length calls =? 0)%nat then Ok END
            else Ok take_browser_action_node)
      end
  end.

(** [reinvoke_model_or_end]. *)
Definition reinvoke_model_or_end (state : CUAState) : Node :=
  if last_has_type (messages state) "tool" then call_model_node else END.

(** *** The state update a node returns, and how the graph applies it *)

(** The dictionary a node returns; [u_messages] is its ["messages"]
    entry ([None] when the node has no message to add). *)
Record Update : Type := {
  u_messages : option Message;
  u_playwright : option Playwright;
  u_browser : option Browser;
  u_session_id : option string;
  u_current_page : option Page;
  u_stream_url : option string;
}.

(** Modelled from the spec: the reducers that [types.py] (absent)
    attaches to [CUAState].  The conversation is append-only and a step
    adds the one message of its update, if any; every other field takes
    the value of the update.  [conversation] is the message list the
    node worked on, which [call_model] may have changed in place. *)
Definition apply_update (conversation : list Message) (u : Update) : CUAState :=
  {| messages := conversation ++ option_list (u_messages u);
     session_id := u_session_id u;
     stream_url := u_stream_url u;
     playwright := u_playwright u;
     browser := u_browser u;
     current_page := u_current_page u |}.

(** *** [nodes/call_model.py] and [nodes/take_browser_action.py] *)

(** [f"{session.ws_endpoint}&keepAlive=true"]. *)
Definition cdp_endpoint (session : SessionDetail) : string :=
  default "None" (ws_endpoint session) +:+ "&keepAlive=true".

(** [browser.contexts[0].pages[0]]. *)
Definition first_page (b : Browser) : result Page :=
  match contexts b with
  | [] => Raise IndexError
  | pages :: _ =>
      match pages with
      | [] => Raise IndexError
      | p :: _ => Ok p
      end
  end.

Definition screenshot_url (b64 : string) : string :=
  "data:image/png;base64," +:+ b64.

Definition dict_of (l : list (string * pyval)) : pyval :=
  PDict (list_to_map l).

(** [messages[0].content.append(item)]: changes the first message of the
    conversation in place; a string content has no [append]. *)
Definition append_to_first_content (msgs : list Message) (item : pyval)
    : result (list Message) :=
  match msgs with
  | [] => Raise IndexError
  | m0 :: rest =>
      match content m0 with
      | PList blocks =>
          Ok ({| msg_type := msg_type m0;
                 content := PList (blocks ++ [item]);
                 additional_kwargs := additional_kwargs m0;
                 tool_calls := tool_calls m0;
                 response_metadata := response_metadata m0;
                 tool_call_id := tool_call_id m0 |} :: rest)
      | _ => Raise AttributeError
      end
  end.

(** [ToolMessage(content=..., tool_call_id=..., additional_kwargs=...)];
    the validation the message class runs on its arguments is not part of
    this program. *)
Definition ToolMessage (content : pyval) (tool_call_id : pyval)
    (kwargs : dict) : Message :=
  {| msg_type := Some "tool";
     content := content;
     additional_kwargs := Some kwargs;
     tool_calls := [];
     response_metadata := Some ∅;
     tool_call_id := tool_call_id |}.

Section Nodes.
Context (E : Env).

Definition sleep (seconds : Z) : M unit :=
  await (page_opened E) (EvSleep seconds) (fun _ => Ok tt).

Definition page_screenshot (page : Page) : M string :=
  await (page_opened E) (EvScreenshot page) (fun h => screenshot E h page).

Definition page_set_viewport_size (page : Page) : M unit :=
  await (page_opened E)
    (EvSetViewport page DEFAULT_DISPLAY_WIDTH DEFAULT_DISPLAY_HEIGHT)
    (fun h => set_viewport_size E h page).

(** [playwright = await async_playwright().start()] and
    [browser = await playwright.chromium.connect_over_cdp(...)]. *)
Definition connect (session : SessionDetail) : M (Playwright * Browser) :=
  pw ← await (page_opened E) EvPlaywrightStart (playwright_start E);
  br ← await (page_opened E) (EvConnect (cdp_endpoint session))
         (fun h => connect_over_cdp E h (cdp_endpoint session));
  emit (EvPrint "Playwright connected successfully");;
  mret (pw, br).

(** The block both nodes share: write the live URL of [session] to the
    custom stream. *)
Definition write_stream_url (session : SessionDetail) : M (option string) :=
  emit (EvStreamWrite (live_url session));;
  emit (EvPrint "Stream URL");;
  mret (live_url session).

(** [call_model(state)].  Returns the conversation as the node leaves
    it (its first message may have gained a screenshot) and the update
    dictionary. *)
Definition call_model (state : CUAState) : M (list Message * Update) :=
  let msgs := messages state in
  let last_is_tool := last_has_type msgs "tool" in
  previous_response_id ← lift (
    if last_is_tool then previous_ai_token msgs else last_ai_token msgs);
  let invoke input :=
    await (page_opened E) (EvInvoke input previous_response_id (hb_tools E))
      (fun h => ainvoke E h input previous_response_id (hb_tools E)) in
  session ← init_or_load_without_config E state;
  '(pw, br) ← match playwright state, browser state with
              | Some pw, Some br => mret (pw, br)
              | _, _ => connect session
              end;
  fallback ← lift (first_page br);
  let page := default fallback (current_page state) in
  page_set_viewport_size page;;
  url ← (if opt_truthy (stream_url state) then mret (stream_url state)
         else write_stream_url session);
  '(msgs', response) ←
    (if last_is_tool then
       if is_none previous_response_id then
         raise (ValueError "Cannot process tool message without a previous_response_id")
       else
         response ← invoke (InMsg <$> option_list (last_message msgs));
         mret (msgs, response)
     else
       msgs' ← (if is_none previous_response_id then
                  shot ← page_screenshot page;
                  lift (append_to_first_content msgs
                          (dict_of [("type", PStr "input_image");
                                    ("image_url",
                                     PStr (screenshot_url (b64encode E shot)));
                                    ("detail", PStr "auto")]))
                else mret msgs);
       response ← invoke (InMsg <$> msgs');
       mret (msgs', response));
  mret (msgs',
        {| u_messages := Some response;
           u_playwright := Some pw;
           u_browser := Some br;
           u_session_id := Some (id session);
           u_current_page := Some page;
           u_stream_url := url |}).

(** The body of [for tool_output in tool_outputs]. *)
Definition computer_call_step (tool_message : option Message)
    (tool_output : pyval) : M (option Message) :=
  t ← lift (dyn_get tool_output "type");
  if eq_str t "computer_call" then
    page ← read_page;
    await (page_opened E) (EvComputerCall page tool_output)
      (fun h => handle_computer_call E h page tool_output);;
    sleep 1;;
    page ← read_page;
    shot ← page_screenshot page;
    call_id ← lift (dyn_get tool_output "call_id");
    mret (Some (ToolMessage
                  (PList [dict_of [("type", PStr "input_image");
                                   ("image_url",
                                    PStr (screenshot_url (b64encode E shot)))]])
                  call_id
                  {[ "type" := PStr "computer_call_output" ]}))
  else
    emit (EvPrint "unknown tool output type");;
    mret tool_message.

(** The body of [for tool_call in tool_calls]. *)
Definition function_call_step (tool_message : option Message)
    (tool_call : ToolCall) : M (option Message) :=
  page ← read_page;
  r ← await (page_opened E) (EvFunctionCall page tool_call)
        (fun h => handle_function_tool_call E h page tool_call);
  sleep 1;;
  mret r.

(** The head of [take_browser_action]: the last message must be an
    assistant message with a computer call or a function call.  Returns
    its [tool_outputs] and [tool_calls]. *)
Definition requested_actions (state : CUAState)
    : result (pyval * list ToolCall) :=
  rbind (match last_message (messages state) with
         | Some m => Ok m
         | None => Raise IndexError
         end) (fun message =>
  rbind (match msg_type message with
         | None => Raise AttributeError
         | Some _ =>
             if has_type message "ai" then Ok tt
             else Raise (AssertionError "Last message must be an AI message")
         end) (fun _ =>
  rbind (match additional_kwargs message with
         | Some d => Ok d
         | None => Raise AttributeError
         end) (fun kwargs =>
  let tool_outputs := get_or kwargs "tool_outputs" (PList []) in
  let calls := tool_calls message in
  rbind (is_computer_tool_call tool_outputs) (fun computer =>
  if negb computer && (length calls =? 0)%nat then
    Raise (ValueError "Cannot take computer action without a computer call or function call in the last message.")
  else Ok (tool_outputs, calls))))).

(** The middle of [take_browser_action]: reuse or open the driver
    connection, bind [page] and register [handle_page_event], fix the
    viewport, and write the stream URL if the state has none. *)
Definition bind_browser (state : CUAState) (config : RunnableConfig)
    : M (Playwright * Browser * option string) :=
  '(pw, br) ← match playwright state, browser state with
              | Some pw, Some br => mret (pw, br)
              | _, _ => session ← init_or_load E state config; connect session
              end;
  fallback ← lift (first_page br);
  bind_page (default fallback (current_page state));;
  page ← read_page;
  page_set_viewport_size page;;
  url ← (if opt_truthy (stream_url state) then mret (stream_url state)
         else session ← init_or_load E state config; write_stream_url session);
  mret (pw, br, url).

(** The two loops of [take_browser_action]: every tool output, then
    every function call, each overwriting [tool_message]. *)
Definition dispatch (outputs : list pyval) (calls : list ToolCall)
    : M (option Message) :=
  tool_message ← for_each computer_call_step outputs None;
  for_each function_call_step calls tool_message.

(** [take_browser_action(state, config)]. *)
Definition take_browser_action (state : CUAState) (config : RunnableConfig)
    : M Update :=
  '(tool_outputs, calls) ← lift (requested_actions state);
  '(pw, br, url) ← bind_browser state config;
  outputs ← lift (iter tool_outputs);
  tool_message ← dispatch outputs calls;
  page ← read_page;
  mret {| u_messages := tool_message;
          u_playwright := Some pw;
          u_browser := Some br;
          u_session_id := session_id state;
          u_current_page := Some page;
          u_stream_url := url |}.

(** *** [graph.py]: the compiled workflow *)

Inductive Outcome : Type :=
| Finished (state : CUAState)
| Limit (next : Node) (state : CUAState).

(** The workflow from a node on: run the node, apply its update, follow
    the conditional edge.  [steps] bounds the number of node
    executions, as the recursion limit of the graph runtime does. *)
Fixpoint run_from (steps : nat) (config : RunnableConfig)
    (node : Node) (state : CUAState) : M Outcome :=
  match node with
  | END => mret (Finished state)
  | call_model_node =>
      match steps with
      | O => mret (Limit node state)
      | S steps' =>
          '(conversation, u) ← call_model state;
          let state' := apply_update conversation u in
          next ← lift (take_action_or_end state');
          run_from steps' config next state'
      end
  | take_browser_action_node =>
      match steps with
      | O => mret (Limit node state)
      | S steps' =>
          u ← take_browser_action state config;
          let state' := apply_update (messages state) u in
          run_from steps' config (reinvoke_model_or_end state') state'
      end
  end.

(** [workflow.add_edge(START, "call_model")]. *)
Definition graph (steps : nat) (config : RunnableConfig) (input : CUAState)
    : M Outcome :=
  run_from steps config call_model_node input.

End Nodes.

End Hyperbrowser.

(** * Vocabulary of the properties *)

(** ** Pending action requests *)

(** A tool output of the [computer_call] kind. *)
Definition is_computer_call_item (o : pyval) : bool :=
  match o with
  | PDict d => eq_str (get d "type") "computer_call"
  | _ => false
  end.




(** A non-empty list all of whose items are [computer_call] outputs. *)
Definition only_computer_calls (v : pyval) : bool :=
  match v with
  | PList (o :: l) => forallb is_computer_call_item (o :: l)
  | _ => false
  end.

(** Concrete messages used in the examples. *)
Definition HumanMessage (blocks : list pyval) : Message :=
  {| msg_type := Some "human"; content := PList blocks;
     additional_kwargs := Some ∅; tool_calls := [];
     response_metadata := Some ∅; tool_call_id := PNone |}.

Definition AIMessage (kwargs : dict) (calls : list ToolCall) (metadata : dict)
    : Message :=
  {| msg_type := Some "ai"; content := PStr "";
     additional_kwargs := Some kwargs; tool_calls := calls;
     response_metadata := Some metadata; tool_call_id := PNone |}.

Definition state_of (msgs : list Message) : CUAState :=
  {| messages := msgs; session_id := None; stream_url := None;
     playwright := None; browser := None; current_page := None |}.

Definition computer_call (call_id : string) : pyval :=
  PDict (list_to_map [("type", PStr "computer_call"); ("call_id", PStr call_id)]).


Definition go_to_url (call_id url : string) : ToolCall :=
  {| tc_name := "go_to_url"; tc_args := {[ "url" := PStr url ]};
     tc_id := Some call_id |}.



(** ** Continuation tokens and model invocations *)

(** The continuation token resolvable from the second-to-latest message:
    the [id] of its response metadata, when that message is an assistant
    message and the [id] is not [None]. *)
Definition resolvable_token (msgs : list Message) : option pyval :=
  match second_to_last msgs with
  | Some previous =>
      if has_type previous "ai" then
        match metadata_id previous with
        | Ok token => if is_none token then None else Some token
        | Raise _ => None
        end
      else None
  | None => None
  end.

(** The model invocations of a trace: input, token, tools. *)
Definition invocation (ev : Event) : option (list Input * pyval * list pyval) :=
  match ev with
  | EvInvoke input token tools => Some (input, token, tools)
  | _ => None
  end.

Definition invocations (evs : list Event) : list (list Input * pyval * list pyval) :=
  omap invocation evs.

(** [conv] is the conversation [msgs], possibly after the in-place
    attachment of one item to the content of its first message. *)
Definition conversation_as_sent (msgs conv : list Message) : Prop :=
  conv = msgs ∨ ∃ item, Hyperbrowser.append_to_first_content msgs item = Ok conv.

(** The input of the generic node on a full-history turn: the system
    prompt, if one is configured, then every message. *)
Definition full_history (c : Nodes.Configuration) (msgs : list Message) : list Input :=
  option_list (Nodes._prompt_to_sys_message (Nodes.prompt c)) ++ (InMsg <$> msgs).

(** A tool result, and a configuration with continuity enabled. *)
Definition tool_result (call_id : string) : Message :=
  Hyperbrowser.ToolMessage (PList []) (PStr call_id)
    {[ "type" := PStr "computer_call_output" ]}.

Definition continuity_on : Nodes.Configuration :=
  {| Nodes.provider := Some Nodes.ProviderScrapybara;
     Nodes.environment := PStr "web";
     Nodes.zdr_enabled := PBool false;
     Nodes.prompt := None;
     Nodes.session_params := PNone |}.

(** A three-message conversation: the request, a reply asking for one
    computer call under response id [resp_1], and the result of that call. *)
Definition first_reply : Message :=
  AIMessage {[ "tool_outputs" := PList [computer_call "call_1"] ]} []
    {[ "id" := PStr "resp_1" ]}.

Definition after_first_action : list Message :=
  [HumanMessage [PStr "go to example.com"]; first_reply; tool_result "call_1"].

(** The same turn when the previous message is not an assistant message. *)
Definition orphan_tool_turn : list Message :=
  [HumanMessage [PStr "go to example.com"]; tool_result "call_1"].

(** ** The first-turn screenshot *)

(** The image block the hyperbrowser model node attaches. *)
Definition first_turn_image (E : Env) (shot : string) : pyval :=
  Hyperbrowser.dict_of
    [("type", PStr "input_image");
     ("image_url", PStr (Hyperbrowser.screenshot_url (b64encode E shot)));
     ("detail", PStr "auto")].

(** The content of the first message is a list. *)
Definition first_content_is_list (msgs : list Message) : bool :=
  match msgs with
  | m0 :: _ => match content m0 with PList _ => true | _ => false end
  | [] => false
  end.

(** Screenshots of a trace: the page captured. *)
Definition captured (ev : Event) : option Page :=
  match ev with
  | EvScreenshot page => Some page
  | _ => None
  end.

(** Screenshots and model invocations of a trace, in order. *)
Definition sight (ev : Event) : option (Page + list Input * pyval * list pyval) :=
  match ev with
  | EvScreenshot page => Some (inl page)
  | EvInvoke input token tools => Some (inr (input, token, tools))
  | _ => None
  end.

(** A request that carries one tool message and nothing else. *)
Definition tool_only (inv : list Input * pyval * list pyval) : Prop :=
  ∃ m, inv.1.1 = [InMsg m] ∧ has_type m "tool" = true.

(** ** A weakest-precondition reading of the effect monad *)

(** [wp m Φ]: from any state, [m] only appends events to the trace, and the
    appended events and the result satisfy [Φ]. *)
Definition wp {A} (m : M A) (Φ : list Event → result A → Prop) : Prop :=
  ∀ s, ∃ evs, trace (m s).2 = trace s ++ evs ∧ Φ evs (m s).1.

(** [follows π sched]: the events a computation appended, seen through the
    observation [π], are a prefix of [sched], and all of [sched] when the
    computation returned. *)
Definition follows {A L} (π : Event → option L) (sched : list L)
    (evs : list Event) (r : result A) : Prop :=
  omap π evs `prefix_of` sched ∧ (is_ok r = true → omap π evs = sched).

(** The items a loop over [v] visits; none when [v] is not iterable. *)
Definition iterated (v : pyval) : list pyval :=
  match iter v with Ok l => l | Raise _ => [] end.

(** ** The dispatch schedule *)

(** What executing one action consists of. *)
Inductive Step : Type :=
| StepComputerCall (tool_output : pyval)
| StepFunctionCall (tool_call : ToolCall)
| StepSettle
| StepScreenshot.

Definition step_of (ev : Event) : option Step :=
  match ev with
  | EvComputerCall _ o => Some (StepComputerCall o)
  | EvFunctionCall _ c => Some (StepFunctionCall c)
  | EvSleep _ => Some StepSettle
  | EvScreenshot _ => Some StepScreenshot
  | _ => None
  end.

(** A pointer action: the driver command, the settle delay, the screenshot. *)
Definition computer_call_steps (o : pyval) : list Step :=
  if is_computer_call_item o
  then [StepComputerCall o; StepSettle; StepScreenshot]
  else [].

(** A named function call: the call, the settle delay. *)
Definition function_call_steps (c : ToolCall) : list Step :=
  [StepFunctionCall c; StepSettle].

(** The batch in the order of the message: every tool output in list
    order, then every function call in list order, each action's steps
    together. *)
Definition schedule (outputs : list pyval) (calls : list ToolCall) : list Step :=
  (outputs ≫= computer_call_steps) ++ (calls ≫= function_call_steps).

(** ** The result of a batch *)

(** The tool message built from the screenshot taken after the pointer
    action [o]. *)
Definition computer_call_output (E : Env) (shot : string) (o : pyval) : Message :=
  Hyperbrowser.ToolMessage
    (PList [Hyperbrowser.dict_of
              [("type", PStr "input_image");
               ("image_url",
                PStr (Hyperbrowser.screenshot_url (b64encode E shot)))]])
    (match o with PDict d => get d "call_id" | _ => PNone end)
    {[ "type" := PStr "computer_call_output" ]}.

(** [tm] is what the last action of the batch produced: the answer of the
    function-call handler for the last function call; with no function
    call, the screenshot message of the last computer call; with no action
    at all, nothing. *)
Definition result_of_last_action (E : Env) (outputs : list pyval)
    (calls : list ToolCall) (tm : option Message) : Prop :=
  match last calls with
  | Some c => ∃ h page, handle_function_tool_call E h page c = Ok tm
  | None =>
      match last (List.filter is_computer_call_item outputs) with
      | Some o => ∃ h page shot, screenshot E h page = Ok shot ∧
                                 tm = Some (computer_call_output E shot o)
      | None => tm = None
      end
  end.



Definition example_config : Hyperbrowser.RunnableConfig :=
  {| Hyperbrowser.hyperbrowser_api_key := Some "hb_key" |}.

(** A reply asking for two pointer actions and one function call. *)
Definition busy_reply : Message :=
  AIMessage {[ "tool_outputs" := PList [computer_call "call_a"; computer_call "call_b"] ]}
    [go_to_url "call_c" "https://example.com"] {[ "id" := PStr "resp_4" ]}.

(** A reply asking for two pointer actions only. *)
Definition two_clicks_reply : Message :=
  AIMessage {[ "tool_outputs" := PList [computer_call "call_a"; computer_call "call_b"] ]}
    [] {[ "id" := PStr "resp_5" ]}.

(** A state as [call_model] leaves it: session, connection, page and
    stream URL populated. *)
Definition bound_state (msgs : list Message) : CUAState :=
  {| messages := msgs;
     session_id := Some "sess_1";
     stream_url := Some "https://live.example/sess_1";
     playwright := Some 1%nat;
     browser := Some {| contexts := [[7%nat]] |};
     current_page := Some 7%nat |}.

(** ** Sessions and the side channel *)

(** Session creations of a trace: captcha solving, width, height. *)
Definition creation (ev : Event) : option (bool * Z * Z) :=
  match ev with
  | EvSessionCreate _ captchas w h => Some (captchas, w, h)
  | _ => None
  end.

(** Writes to the custom stream. *)
Definition stream_write (ev : Event) : option (option string) :=
  match ev with
  | EvStreamWrite url => Some url
  | _ => None
  end.

(** Browser actions: pointer actions and named function calls. *)
Definition action (ev : Event) : option Event :=
  match ev with
  | EvComputerCall _ _ | EvFunctionCall _ _ => Some ev
  | _ => None
  end.

(** What the dispatch loops can emit. *)
Definition is_dispatch_event (ev : Event) : bool :=
  match ev with
  | EvComputerCall _ _ | EvFunctionCall _ _ | EvSleep _ | EvScreenshot _
  | EvPrint _ => true
  | _ => false
  end.

(** The session provider's side of the contract: resuming a session
    returns the session asked for, and a new session has a non-empty id. *)
Definition faithful_ids (E : Env) : Prop :=
  (∀ h key sid sess, sessions_get E h key sid = Ok sess → id sess = sid) ∧
  (∀ h key sess, sessions_create E h key = Ok sess →
                 truthy (PStr (id sess)) = true).

(** The session provider reports a non-empty live-view URL. *)
Definition live_urls (E : Env) : Prop :=
  (∀ h key sid sess, sessions_get E h key sid = Ok sess →
                     opt_truthy (live_url sess) = true) ∧
  (∀ h key sess, sessions_create E h key = Ok sess →
                 opt_truthy (live_url sess) = true).

(** ** A collaborator set for the examples *)

Definition example_session : SessionDetail :=
  {| id := "sess_1"; ws_endpoint := Some "wss://cdp.example/sess_1?token=t";
     live_url := Some "https://live.example/sess_1" |}.

Definition final_reply : Message :=
  AIMessage {[ "reasoning" := PStr "done" ]} [] {[ "id" := PStr "resp_9" ]}.

(** Every call succeeds; the model answers with a closing reply. *)
Definition example_env : Env :=
  {| getenv_HYPERBROWSER_API_KEY := Some "hb_key";
     sessions_get := fun _ _ sid =>
       Ok {| id := sid; ws_endpoint := ws_endpoint example_session;
             live_url := live_url example_session |};
     sessions_create := fun _ _ => Ok example_session;
     playwright_start := fun _ => Ok 1%nat;
     connect_over_cdp := fun _ _ => Ok {| contexts := [[7%nat]] |};
     set_viewport_size := fun _ _ => Ok tt;
     screenshot := fun _ _ => Ok "PNG";
     b64encode := fun _ => "UE5H";
     ainvoke := fun _ _ _ _ => Ok final_reply;
     handle_computer_call := fun _ _ _ => Ok tt;
     handle_function_tool_call := fun _ _ call =>
       Ok (Some {| msg_type := Some "tool"; content := PStr (tc_name call);
                   additional_kwargs := Some ∅; tool_calls := [];
                   response_metadata := Some ∅;
                   tool_call_id := of_opt_str (tc_id call) |});
     hb_tools := [];
     page_opened := fun _ => None |}.

(** The same collaborators with a model that first asks for one pointer
    action and closes on its second invocation. *)
Definition invoked_before (h : list Event) : bool :=
  existsb (λ ev, match ev with EvInvoke _ _ _ => true | _ => false end) h.

Definition acting_env : Env :=
  {| getenv_HYPERBROWSER_API_KEY := getenv_HYPERBROWSER_API_KEY example_env;
     sessions_get := sessions_get example_env;
     sessions_create := sessions_create example_env;
     playwright_start := playwright_start example_env;
     connect_over_cdp := connect_over_cdp example_env;
     set_viewport_size := set_viewport_size example_env;
     screenshot := screenshot example_env;
     b64encode := b64encode example_env;
     ainvoke := fun h _ _ _ =>
       Ok (if invoked_before h then final_reply else first_reply);
     handle_computer_call := handle_computer_call example_env;
     handle_function_tool_call := handle_function_tool_call example_env;
     hb_tools := hb_tools example_env;
     page_opened := page_opened example_env |}.

(** The same again with a provider whose sessions report no live-view
    URL. *)
Definition mute_env : Env :=
  {| getenv_HYPERBROWSER_API_KEY := getenv_HYPERBROWSER_API_KEY acting_env;
     sessions_get := fun _ _ sid =>
       Ok {| id := sid; ws_endpoint := ws_endpoint example_session;
             live_url := None |};
     sessions_create := fun _ _ =>
       Ok {| id := "sess_1"; ws_endpoint := ws_endpoint example_session;
             live_url := None |};
     playwright_start := playwright_start acting_env;
     connect_over_cdp := connect_over_cdp acting_env;
     set_viewport_size := set_viewport_size acting_env;
     screenshot := screenshot acting_env;
     b64encode := b64encode acting_env;
     ainvoke := ainvoke acting_env;
     handle_computer_call := handle_computer_call acting_env;
     handle_function_tool_call := handle_function_tool_call acting_env;
     hb_tools := hb_tools acting_env;
     page_opened := page_opened acting_env |}.

(** The input of a fresh run. *)
Definition fresh_input : CUAState :=
  state_of [HumanMessage [PStr "go to example.com"]].

(** ** Vocabulary of the further properties *)

(** [isinstance(v, list)]. *)
Definition is_list (v : pyval) : bool :=
  match v with PList _ => true | _ => false end.

(** The connection handles of a state are both populated. *)
Definition connected (state : CUAState) : bool :=
  match playwright state, browser state with
  | Some _, Some _ => true
  | _, _ => false
  end.

(** Opening a driver connection: starting Playwright, connecting over CDP. *)
Definition connection (ev : Event) : option Event :=
  match ev with
  | EvPlaywrightStart | EvConnect _ => Some ev
  | _ => None
  end.

(** A session creation or a viewport command that is not at the fixed
    display size of [hyperbrowser/utils.py], or a session creation without
    captcha solving. *)
Definition off_resolution (ev : Event) : option Event :=
  match ev with
  | EvSetViewport _ w h =>
      if (w =? Hyperbrowser.DEFAULT_DISPLAY_WIDTH)
         && (h =? Hyperbrowser.DEFAULT_DISPLAY_HEIGHT)
      then None else Some ev
  | EvSessionCreate _ captchas w h =>
      if captchas && (w =? Hyperbrowser.DEFAULT_DISPLAY_WIDTH)
         && (h =? Hyperbrowser.DEFAULT_DISPLAY_HEIGHT)
      then None else Some ev
  | _ => None
  end.

(** [tool_output.get("call_id")] of a tool output. *)
Definition call_id_of (o : pyval) : pyval :=
  match o with PDict d => get d "call_id" | _ => PNone end.

(** Model invocations ([true]) and browser actions ([false]) of a trace,
    in order. *)
Definition turn (ev : Event) : option bool :=
  match ev with
  | EvInvoke _ _ _ => Some true
  | EvComputerCall _ _ | EvFunctionCall _ _ => Some false
  | _ => None
  end.

(** No two model invocations follow each other without a browser action
    between them. *)
Fixpoint acted_between (turns : list bool) : bool :=
  match turns with
  | [] => true
  | x :: rest =>
      match rest with
      | [] => true
      | y :: _ => negb (x && y) && acted_between rest
      end
  end.

(** The steps of the schedule that send a command to the browser. *)
Definition is_call_step (st : Step) : bool :=
  match st with
  | StepComputerCall _ | StepFunctionCall _ => true
  | _ => false
  end.

(** The page a driver command is sent to. *)
Definition page_of (ev : Event) : option Page :=
  match ev with
  | EvSetViewport page _ _ | EvScreenshot page
  | EvComputerCall page _ | EvFunctionCall page _ => Some page
  | _ => None
  end.

(** What is known of the variable [page]: nothing, or the page it holds. *)
Definition page_is (known : option Page) (s : St) : Prop :=
  match known with
  | Some p => page_var s = Some p
  | None => True
  end.

(** [wp] with knowledge of the variable [page] before, and after a run
    that returned. *)
Definition wp_page {A} (before after : option Page) (m : M A)
    (Φ : list Event → result A → Prop) : Prop :=
  ∀ s, page_is before s →
       ∃ evs, trace (m s).2 = trace s ++ evs ∧ Φ evs (m s).1 ∧
              (is_ok (m s).1 = true → page_is after (m s).2).

(** A state whose connected browser has no context. *)
Definition pageless_state (msgs : list Message) : CUAState :=
  {| messages := msgs;
     session_id := Some "sess_1";
     stream_url := Some "https://live.example/sess_1";
     playwright := Some 1%nat;
     browser := Some {| contexts := [] |};
     current_page := Some 7%nat |}.

(** What a node lets the client know of the stream URL, against what it
    stores: nothing, storing the URL of the state, when the state has one;
    otherwise one write, of the URL it stores. *)
Definition announced (known : option string) (writes : list (option string))
    (stored : option string) : Prop :=
  if opt_truthy known then writes = [] ∧ stored = known
  else writes = [stored].

(** A state a later run can continue from without reconnecting: both
    connection handles and the current page are populated. *)
Definition resumable (state : CUAState) : Prop :=
  connected state = true ∧ is_Some (current_page state).



(** ** Runs from a given history *)

(** [wp_at h m Φ]: [wp] for the runs of [m] that start when the history
    is [h], so that [Φ] can say which answer of a collaborator a result
    is. *)
Definition wp_at {A} (h : list Event) (m : M A)
    (Φ : list Event → result A → Prop) : Prop :=
  ∀ s, trace s = h → ∃ evs, trace (m s).2 = h ++ evs ∧ Φ evs (m s).1.

(** ** The result of a batch, against the history *)

(** [tm] is the result of the last action of a batch whose run appended
    [evs] to the history [h].  With a function call, the run ends with the
    last function call and its settle delay, and [tm] is what the handler
    answered to that call.  With no function call, the last computer call
    [o] is followed by its settle delay and its screenshot and then by no
    further action, and [tm] is the message built from what the driver
    answered to that screenshot.  With no action at all, [tm] is
    nothing. *)
Definition last_action_result (E : Env) (h evs : list Event)
    (outputs : list pyval) (calls : list ToolCall) (tm : option Message)
    : Prop :=
  match last calls with
  | Some c =>
      ∃ before page,
        evs = before ++ [EvFunctionCall page c; EvSleep 1] ∧
        handle_function_tool_call E (h ++ before) page c = Ok tm
  | None =>
      match last (List.filter is_computer_call_item outputs) with
      | Some o =>
          ∃ before page page' shot after,
            evs = before
                    ++ [EvComputerCall page o; EvSleep 1; EvScreenshot page']
                    ++ after ∧
            omap step_of after = [] ∧
            screenshot E (h ++ before ++ [EvComputerCall page o; EvSleep 1])
              page' = Ok shot ∧
            tm = Some (computer_call_output E shot o)
      | None => tm = None
      end
  end.



(** ** The acquire path, against the history *)

(** Requests to the provider to resume a session: key and session id. *)
Definition resumption (ev : Event) : option (string * string) :=
  match ev with
  | EvSessionGet key sid => Some (key, sid)
  | _ => None
  end.

(** A loader run with the key [api_key] from the history [h] resumed the
    session [sid]: without a key it failed before it contacted the
    provider; with one it asked the provider once, for exactly that
    session, and returned what the provider answered. *)
Definition resumes (E : Env) (h : list Event) (api_key : option string)
    (sid : string) (evs : list Event) (r : result SessionDetail) : Prop :=
  if opt_truthy api_key then
    ∃ key, api_key = Some key ∧ evs = [EvSessionGet key sid] ∧
           r = sessions_get E h key sid
  else evs = [] ∧ r = Raise Hyperbrowser.missing_api_key.

(** The same for a run that created a session: one request, with captcha
    solving on and the display at 1024 by 800. *)
Definition creates (E : Env) (h : list Event) (api_key : option string)
    (evs : list Event) (r : result SessionDetail) : Prop :=
  if opt_truthy api_key then
    ∃ key, api_key = Some key ∧ evs = [EvSessionCreate key true 1024 800] ∧
           r = sessions_create E h key
  else evs = [] ∧ r = Raise Hyperbrowser.missing_api_key.

(** A provider that gives its sessions no id. *)
Definition nameless_env : Env :=
  {| getenv_HYPERBROWSER_API_KEY := getenv_HYPERBROWSER_API_KEY acting_env;
     sessions_get := sessions_get acting_env;
     sessions_create := fun _ _ =>
       Ok {| id := ""; ws_endpoint := ws_endpoint example_session;
             live_url := live_url example_session |};
     playwright_start := playwright_start acting_env;
     connect_over_cdp := connect_over_cdp acting_env;
     set_viewport_size := set_viewport_size acting_env;
     screenshot := screenshot acting_env;
     b64encode := b64encode acting_env;
     ainvoke := ainvoke acting_env;
     handle_computer_call := handle_computer_call acting_env;
     handle_function_tool_call := handle_function_tool_call acting_env;
     hb_tools := hb_tools acting_env;
     page_opened := page_opened acting_env |}.

(** ** The first-turn screenshot, against the history *)

(** [page] is the current page for a node that works with the browser
    [br] on [state]: the page the state holds, or, when it holds none, the
    first page of the first context of the browser. *)
Definition page_in_use (state : CUAState) (br : Browser) (page : Page)
    : Prop :=
  match current_page state with
  | Some p => page = p
  | None => Hyperbrowser.first_page br = Ok page
  end.

(** A connected state whose current page is the second tab of the
    browser. *)
Definition second_tab_state : CUAState :=
  {| messages := [HumanMessage [PStr "go to example.com"]];
     session_id := Some "sess_1";
     stream_url := Some "https://live.example/sess_1";
     playwright := Some 1%nat;
     browser := Some {| contexts := [[7%nat; 9%nat]] |};
     current_page := Some 9%nat |}.

(** * Properties *)

(** ** The tool schema of [nodes/call_model.py] *)

Section ToolSchema.
Import Nodes.

Lemma eq_str_false (s lit : string) : s ≠ lit → eq_str (PStr s) lit = false.
Proof. intros Hne. simpl. by apply String.eqb_neq. Qed.

(** C10.  For every environment string other than "web", "ubuntu" and
    "windows", [get_openai_env_from_state_env] returns [None] and raises
    nothing, and the tool list built for the Scrapybara provider from a
    configuration with that environment is the single
    [computer_use_preview] entry, 1024 by 768, whose [environment] is
    [None]. *)
Theorem unknown_environment_is_none (env : string) (c : Configuration) :
  env ≠ "web" → env ≠ "ubuntu" → env ≠ "windows" →
  get_openai_env_from_state_env (PStr env) = Ok PNone ∧
  (provider c = Some ProviderScrapybara → environment c = PStr env →
   get_available_tools c
     = Ok [computer_use_preview (PInt 1024) (PInt 768) PNone] ∧
   ∀ tool, tool ∈ [computer_use_preview (PInt 1024) (PInt 768) PNone] →
           dyn_get tool "environment" = Ok PNone).
Proof.
  intros Hweb Hubuntu Hwindows.
  assert (Hnone : get_openai_env_from_state_env (PStr env) = Ok PNone).
  { unfold get_openai_env_from_state_env.
    by rewrite !eq_str_false. }
  split; [exact Hnone|].
  intros Hprov Henv. split.
  - unfold get_available_tools. by rewrite Hprov, Henv, Hnone.
  - intros tool Hin. apply list_elem_of_singleton in Hin. by subst tool.
Qed.

Lemma unknown_environment_is_none_witness :
  get_openai_env_from_state_env (PStr "macos") = Ok PNone ∧
  get_available_tools
    {| provider := Some ProviderScrapybara; environment := PStr "macos";
       zdr_enabled := PBool false; prompt := None; session_params := PNone |}
    = Ok [computer_use_preview (PInt 1024) (PInt 768) PNone].
Proof.
  destruct (unknown_environment_is_none "macos"
              {| provider := Some ProviderScrapybara; environment := PStr "macos";
                 zdr_enabled := PBool false; prompt := None;
                 session_params := PNone |})
    as [Hnone Htools]; [done | done | done |].
  split; [exact Hnone|].
  destruct Htools as [Htools _]; [reflexivity | reflexivity |].
  exact Htools.
Defined.

End ToolSchema.

(** ** The router after a model reply *)

Section Router.
Import Hyperbrowser.










End Router.

(** ** Rules of the weakest-precondition reading *)

Section WpRules.
Context {A : Type}.
Implicit Types Φ : list Event → result A → Prop.

Lemma handle_page_event_trace opened s :
  trace (handle_page_event opened s) = trace s.
Proof.
  unfold handle_page_event.
  by destruct (page_var s), (opened (trace s)).
Qed.

Lemma wp_ret (a : A) Φ : Φ [] (Ok a) → wp (mret a) Φ.
Proof. intros H s. exists []. by rewrite app_nil_r. Qed.

Lemma wp_raise e Φ : Φ [] (Raise e) → wp (raise e) Φ.
Proof. intros H s. exists []. by rewrite app_nil_r. Qed.

Lemma wp_lift (r : result A) Φ : Φ [] r → wp (lift r) Φ.
Proof. intros H s. exists []. by rewrite app_nil_r. Qed.

Lemma wp_await opened ev (answer : list Event → result A) Φ :
  (∀ h, Φ [ev] (answer h)) → wp (await opened ev answer) Φ.
Proof.
  intros H s. exists [ev]. unfold await. cbn [fst snd].
  by rewrite handle_page_event_trace.
Qed.

Lemma wp_mono (m : M A) Φ Ψ :
  wp m Φ → (∀ evs r, Φ evs r → Ψ evs r) → wp m Ψ.
Proof.
  intros Hm Himp s. destruct (Hm s) as (evs & Htr & HΦ).
  exists evs. auto.
Qed.

Lemma wp_bind {B} (m : M B) (k : B → M A) Φ :
  wp m (λ evs1 r,
          match r with
          | Ok b => wp (k b) (λ evs2 r2, Φ (evs1 ++ evs2) r2)
          | Raise e => Φ evs1 (Raise e)
          end) →
  wp (m ≫= k) Φ.
Proof.
  intros Hm s. destruct (Hm s) as (evs1 & Htr1 & H1).
  unfold mbind, M_bind, bind.
  destruct (m s) as [[b|e] s1]; cbn [fst snd] in *.
  - destruct (H1 s1) as (evs2 & Htr2 & H2).
    exists (evs1 ++ evs2). split; [|done].
    by rewrite Htr2, Htr1, app_assoc.
  - by exists evs1.
Qed.

End WpRules.

Lemma wp_emit ev (Φ : list Event → result unit → Prop) :
  Φ [ev] (Ok tt) → wp (emit ev) Φ.
Proof. intros H s. by exists [ev]. Qed.

Lemma wp_read_page (Φ : list Event → result Page → Prop) :
  (∀ p, Φ [] (Ok p)) →
  Φ [] (Raise (AssertionError "page is not bound")) →
  wp read_page Φ.
Proof.
  intros Hok Herr s. exists []. rewrite app_nil_r. unfold read_page.
  destruct (page_var s); cbn [fst snd]; auto.
Qed.

Lemma wp_bind_page p (Φ : list Event → result unit → Prop) :
  Φ [] (Ok tt) → wp (bind_page p) Φ.
Proof. intros H s. exists []. by rewrite app_nil_r. Qed.

(** Two facts about one computation are facts about the same events. *)
Lemma wp_and {A} (m : M A) (Φ Ψ : list Event → result A → Prop) :
  wp m Φ → wp m Ψ → wp m (λ evs r, Φ evs r ∧ Ψ evs r).
Proof.
  intros HΦ HΨ s.
  destruct (HΦ s) as (evs & Htrace & H1), (HΨ s) as (evs' & Htrace' & H2).
  exists evs. split; [done|]. split; [done|].
  rewrite Htrace in Htrace'. by apply app_inv_head in Htrace' as <-.
Qed.

(** One step of symbolic execution of a node. *)
Ltac wp_step :=
  cbv beta iota;
  lazymatch goal with
  | |- wp (mbind _ _) _ => apply wp_bind
  | |- wp (mret _) _ => apply wp_ret
  | |- wp (lift _) _ => apply wp_lift
  | |- wp (raise _) _ => apply wp_raise
  | |- wp (emit _) _ => apply wp_emit
  | |- wp (await _ _ _) _ => apply wp_await; intros ?
  | |- wp read_page _ => apply wp_read_page; [intros ?|]
  | |- wp (bind_page _) _ => apply wp_bind_page
  | |- wp (if ?b then _ else _) _ => destruct b eqn:?
  | |- wp (match ?x with _ => _ end) _ => destruct x eqn:?
  | |- match ?r with Ok _ => _ | Raise _ => _ end => destruct r eqn:?
  | |- wp (let '(_, _) := ?p in _) _ => destruct p
  end.

(** ** Continuity: which request the model receives *)

Section Continuity.

Lemma resolvable_token_none msgs token :
  resolvable_token msgs = None →
  previous_ai_token msgs = Ok token → is_none token = true.
Proof.
  unfold resolvable_token, previous_ai_token.
  destruct (second_to_last msgs) as [m2|]; [|by intros _ [= <-]].
  destruct (has_type m2 "ai"); [|by intros _ [= <-]].
  destruct (metadata_id m2) as [t|]; [|done].
  intros Hnone [= <-]. by destruct (is_none t).
Qed.

Lemma resolvable_token_some msgs token :
  resolvable_token msgs = Some token →
  previous_ai_token msgs = Ok token ∧ is_none token = false.
Proof.
  unfold resolvable_token, previous_ai_token.
  destruct (second_to_last msgs) as [m2|]; [|done].
  destruct (has_type m2 "ai"); [|done].
  destruct (metadata_id m2) as [t|]; [|done].
  destruct (is_none t) eqn:Ht; [done|]. by intros [= <-].
Qed.

Lemma last_has_type_eq msgs last t :
  last_message msgs = Some last → last_has_type msgs t = has_type last t.
Proof. unfold last_has_type. by intros ->. Qed.

Ltac unfold_call_model :=
  unfold Hyperbrowser.call_model, Hyperbrowser.init_or_load_without_config,
    Hyperbrowser.get_or_create, Hyperbrowser.create_session,
    Hyperbrowser.connect, Hyperbrowser.page_set_viewport_size,
    Hyperbrowser.page_screenshot, Hyperbrowser.write_stream_url.

Lemma await_run {A} opened ev (answer : list Event → result A) s :
  (await opened ev answer s).1 = answer (trace s) ∧
  trace (await opened ev answer s).2 = trace s ++ [ev].
Proof. unfold await. cbn [fst snd]. by rewrite handle_page_event_trace. Qed.

Lemma generic_tool_turn E state c tools last token s :
  Nodes.get_available_tools c = Ok tools →
  last_message (messages state) = Some last →
  has_type last "tool" = true →
  is_false (Nodes.zdr_enabled c) = true →
  resolvable_token (messages state) = Some token →
  Nodes.call_model E state c s
    = await (page_opened E) (EvInvoke [InMsg last] token tools)
        (λ h, ainvoke E h [InMsg last] token tools) s.
Proof.
  intros Htools Hlast Htool Hzdr [Hprev Htok]%resolvable_token_some.
  unfold Nodes.call_model.
  rewrite (last_has_type_eq _ last) by done.
  rewrite Htool, Hzdr, Hprev, Htools, Hlast. cbn [andb].
  unfold mbind, M_bind, bind, lift. by rewrite Htok.
Qed.

Lemma generic_full_turn E state c tools s :
  Nodes.get_available_tools c = Ok tools →
  last_has_type (messages state) "tool" && is_false (Nodes.zdr_enabled c) = false →
  Nodes.call_model E state c s
    = await (page_opened E)
        (EvInvoke (full_history c (messages state)) PNone tools)
        (λ h, ainvoke E h (full_history c (messages state)) PNone tools) s.
Proof.
  intros Htools Hfull. unfold Nodes.call_model, full_history.
  rewrite Hfull, Htools. unfold mbind, M_bind, bind, lift.
  by destruct (Nodes._prompt_to_sys_message (Nodes.prompt c)).
Qed.

Lemma generic_refused E state c last s :
  last_message (messages state) = Some last →
  has_type last "tool" = true →
  is_false (Nodes.zdr_enabled c) = true →
  resolvable_token (messages state) = None →
  ∃ e, Nodes.call_model E state c s = (Raise e, s).
Proof.
  intros Hlast Htool Hzdr Hnone. unfold Nodes.call_model.
  rewrite (last_has_type_eq _ last) by done. rewrite Htool, Hzdr. cbn [andb].
  pose proof (λ token, resolvable_token_none _ token Hnone) as Htok.
  unfold mbind, M_bind, bind, lift.
  destruct (previous_ai_token (messages state)) as [token|e]; [|by eexists].
  destruct (Nodes.get_available_tools c); [|by eexists].
  rewrite (Htok token) by done. by eexists.
Qed.

Lemma hb_call_model_without_token E state last :
  last_message (messages state) = Some last →
  has_type last "tool" = true →
  resolvable_token (messages state) = None →
  wp (Hyperbrowser.call_model E state)
     (λ evs r, is_ok r = false ∧ invocations evs = []).
Proof.
  intros Hlast Htool Hnone. unfold_call_model.
  rewrite (last_has_type_eq _ last) by done. rewrite Htool.
  pose proof (λ token, resolvable_token_none _ token Hnone) as Htok.
  destruct (previous_ai_token (messages state)) as [token|e].
  2: { repeat wp_step. done. }
  specialize (Htok token eq_refl).
  do 2 wp_step. cbv beta iota. rewrite Htok.
  repeat wp_step; done.
Qed.

Lemma hb_call_model_with_token E state last token :
  last_message (messages state) = Some last →
  has_type last "tool" = true →
  resolvable_token (messages state) = Some token →
  wp (Hyperbrowser.call_model E state)
     (λ evs r,
        (invocations evs = [] ∨
         invocations evs = [([InMsg last], token, hb_tools E)]) ∧
        ∀ conv u, r = Ok (conv, u) →
          invocations evs = [([InMsg last], token, hb_tools E)] ∧
          conv = messages state).
Proof.
  intros Hlast Htool [Hprev Htok]%resolvable_token_some. unfold_call_model.
  rewrite (last_has_type_eq _ last) by done.
  rewrite Htool, Hprev, Hlast.
  do 2 wp_step. cbv beta iota. rewrite Htok.
  repeat wp_step;
    (split; [cbn; auto | intros conv u [= <- <-] || intros conv u [=]; cbn; auto]).
Qed.

Lemma append_to_first_content_sent msgs item conv :
  Hyperbrowser.append_to_first_content msgs item = Ok conv →
  conversation_as_sent msgs conv.
Proof. intros H. right. by exists item. Qed.

Lemma conversation_as_sent_refl msgs : conversation_as_sent msgs msgs.
Proof. by left. Qed.

Lemma hb_call_model_full_history E state :
  last_has_type (messages state) "tool" = false →
  wp (Hyperbrowser.call_model E state)
     (λ evs r,
        Forall (λ inv, ∃ conv token,
                   inv = (InMsg <$> conv, token, hb_tools E) ∧
                   conversation_as_sent (messages state) conv)
               (invocations evs) ∧
        ∀ conv u, r = Ok (conv, u) →
          ∃ token, invocations evs = [(InMsg <$> conv, token, hb_tools E)] ∧
                   conversation_as_sent (messages state) conv).
Proof.
  intros Hfull. unfold_call_model. rewrite Hfull.
  repeat wp_step; cbv beta; (split; [|intros conv u [= <- <-]]); cbn.
  all: repeat (apply List.Forall_cons;
               [cbv beta; eexists; eexists; split; [reflexivity|]|]).
  all: try apply Forall_nil.
  all: try (eexists; split; [reflexivity|]).
  all: eauto using append_to_first_content_sent, conversation_as_sent_refl.
Qed.

(** C2, as amended.  In the generic node: when the latest message is a
    tool message, continuity is enabled ([zdr_enabled is False]) and the
    second-to-latest message is an assistant message carrying a token,
    the model is invoked once, with only that tool message, plus the
    token; when the latest message is not a tool message or continuity is
    disabled, it is invoked once with the entire conversation, preceded
    by the configured system prompt if there is one, and no token.  In
    the hyperbrowser node, whose continuity is always on: on a tool turn
    with a token, any invocation carries only the tool message and the
    token, and a successful run made exactly that one; when the latest
    message is not a tool message, any invocation carries the entire
    conversation (its first message possibly extended by one attachment),
    and a successful run made exactly one. *)
Theorem model_request_shape (E : Env) (state : CUAState) :
  (∀ c tools s,
     Nodes.get_available_tools c = Ok tools →
     (∀ last token,
        last_message (messages state) = Some last →
        has_type last "tool" = true →
        is_false (Nodes.zdr_enabled c) = true →
        resolvable_token (messages state) = Some token →
        (Nodes.call_model E state c s).1
          = ainvoke E (trace s) [InMsg last] token tools ∧
        trace (Nodes.call_model E state c s).2
          = trace s ++ [EvInvoke [InMsg last] token tools]) ∧
     (last_has_type (messages state) "tool" && is_false (Nodes.zdr_enabled c)
        = false →
      (Nodes.call_model E state c s).1
        = ainvoke E (trace s) (full_history c (messages state)) PNone tools ∧
      trace (Nodes.call_model E state c s).2
        = trace s ++ [EvInvoke (full_history c (messages state)) PNone tools])) ∧
  (∀ last token,
     last_message (messages state) = Some last →
     has_type last "tool" = true →
     resolvable_token (messages state) = Some token →
     wp (Hyperbrowser.call_model E state)
        (λ evs r,
           (invocations evs = [] ∨
            invocations evs = [([InMsg last], token, hb_tools E)]) ∧
           ∀ conv u, r = Ok (conv, u) →
             invocations evs = [([InMsg last], token, hb_tools E)] ∧
             conv = messages state)) ∧
  (last_has_type (messages state) "tool" = false →
   wp (Hyperbrowser.call_model E state)
      (λ evs r,
         Forall (λ inv, ∃ conv token,
                    inv = (InMsg <$> conv, token, hb_tools E) ∧
                    conversation_as_sent (messages state) conv)
                (invocations evs) ∧
         ∀ conv u, r = Ok (conv, u) →
           ∃ token, invocations evs = [(InMsg <$> conv, token, hb_tools E)] ∧
                    conversation_as_sent (messages state) conv)).
Proof.
  split; [|split].
  - intros c tools s Htools. split.
    + intros last token Hlast Htool Hzdr Htok.
      rewrite (generic_tool_turn E state c tools last token) by done.
      apply await_run.
    + intros Hfull. rewrite (generic_full_turn E state c tools) by done.
      apply await_run.
  - intros last token. apply hb_call_model_with_token.
  - apply hb_call_model_full_history.
Qed.

Lemma model_request_shape_witness :
  trace (Nodes.call_model example_env (state_of after_first_action)
           continuity_on initial).2
    = [EvInvoke [InMsg (tool_result "call_1")] (PStr "resp_1")
         [Nodes.computer_use_preview (PInt 1024) (PInt 768) (PStr "browser")]]
  ∧
  trace (Nodes.call_model example_env
           (state_of [HumanMessage [PStr "go to example.com"]])
           continuity_on initial).2
    = [EvInvoke [InMsg (HumanMessage [PStr "go to example.com"])] PNone
         [Nodes.computer_use_preview (PInt 1024) (PInt 768) (PStr "browser")]].
Proof.
  split.
  - destruct (model_request_shape example_env (state_of after_first_action))
      as [Hgeneric _].
    destruct (Hgeneric continuity_on
                [Nodes.computer_use_preview (PInt 1024) (PInt 768) (PStr "browser")]
                initial eq_refl) as [Htool _].
    exact (proj2 (Htool (tool_result "call_1") (PStr "resp_1")
                    eq_refl eq_refl eq_refl eq_refl)).
  - destruct (model_request_shape example_env
                (state_of [HumanMessage [PStr "go to example.com"]]))
      as [Hgeneric _].
    destruct (Hgeneric continuity_on
                [Nodes.computer_use_preview (PInt 1024) (PInt 768) (PStr "browser")]
                initial eq_refl) as [_ Hfull].
    exact (proj2 (Hfull eq_refl)).
Defined.

(** C2 as stated fails.  With continuity enabled, a tool message last and
    no token available (the message before it is not an assistant
    message), the model is not invoked with the entire conversation: the
    node raises and invokes nothing. *)
Lemma no_token_is_not_full_history :
  last_has_type orphan_tool_turn "tool" = true ∧
  is_false (Nodes.zdr_enabled continuity_on) = true ∧
  resolvable_token orphan_tool_turn = None ∧
  Nodes.call_model example_env (state_of orphan_tool_turn) continuity_on initial
    = (Raise (ValueError "Cannot process tool message without a previous_response_id"),
       initial) ∧
  invocations
    (trace (Nodes.call_model example_env (state_of orphan_tool_turn)
              continuity_on initial).2) = [].
Proof. vm_compute. auto 6. Qed.

(** C3.  When the latest message is a tool message, continuity is
    required and no continuation token is resolvable from the
    second-to-latest message, the model invoker raises: the generic node
    returns an error without any effect, and the hyperbrowser node ends in
    an error without a single model invocation. *)
Theorem tool_turn_without_token_is_fatal (E : Env) (state : CUAState)
    (last : Message) :
  last_message (messages state) = Some last →
  has_type last "tool" = true →
  resolvable_token (messages state) = None →
  (∀ c s, is_false (Nodes.zdr_enabled c) = true →
          ∃ e, Nodes.call_model E state c s = (Raise e, s)) ∧
  wp (Hyperbrowser.call_model E state)
     (λ evs r, is_ok r = false ∧ invocations evs = []).
Proof.
  intros Hlast Htool Hnone. split.
  - intros c s Hzdr. by apply (generic_refused E state c last).
  - by apply (hb_call_model_without_token E state last).
Qed.

Lemma tool_turn_without_token_is_fatal_witness :
  (∃ e, Nodes.call_model example_env (state_of orphan_tool_turn)
          continuity_on initial = (Raise e, initial)) ∧
  ∃ evs,
    trace (Hyperbrowser.call_model example_env (state_of orphan_tool_turn)
             initial).2 = trace initial ++ evs ∧
    is_ok (Hyperbrowser.call_model example_env (state_of orphan_tool_turn)
             initial).1 = false ∧
    invocations evs = [].
Proof.
  destruct (tool_turn_without_token_is_fatal example_env
              (state_of orphan_tool_turn) (tool_result "call_1")
              eq_refl eq_refl eq_refl) as [Hgeneric Hhb].
  split.
  - exact (Hgeneric continuity_on initial eq_refl).
  - exact (Hhb initial).
Defined.

End Continuity.

(** ** The action dispatcher *)

Section Follows.
Context {L : Type} (π : Event → option L).

Lemma follows_nil {A} (r : result A) : follows π [] [] r.
Proof. split; [apply prefix_nil | done]. Qed.

Lemma follows_bind {A B} (m : M A) (k : A → M B) (s1 s2 : list L) :
  wp m (follows π s1) →
  (∀ a, wp (k a) (follows π s2)) →
  wp (m ≫= k) (follows π (s1 ++ s2)).
Proof.
  intros Hm Hk. apply wp_bind. eapply wp_mono; [exact Hm|].
  intros evs1 [a|e] [Hpre Hall]; cbv beta iota.
  - eapply wp_mono; [apply Hk|]. intros evs2 r2 [Hpre2 Hall2].
    unfold follows. rewrite omap_app, Hall by done. split.
    + by apply prefix_app.
    + intros Hok. by rewrite Hall2.
  - split; [|done]. by apply prefix_app_r.
Qed.

Lemma follows_silent_bind {A B} (m : M A) (k : A → M B) (sched : list L) :
  wp m (follows π []) →
  (∀ a, wp (k a) (follows π sched)) →
  wp (m ≫= k) (follows π sched).
Proof. intros Hm Hk. by apply (follows_bind m k [] sched). Qed.

Lemma follows_for_each {A B} (body : B → A → M B) (sched : A → list L)
    (l : list A) (acc : B) :
  (∀ acc x, wp (body acc x) (follows π (sched x))) →
  wp (for_each body l acc) (follows π (l ≫= sched)).
Proof.
  intros Hbody. revert acc.
  induction l as [|x l IH]; intros acc; cbn [for_each].
  - apply wp_ret, follows_nil.
  - rewrite bind_cons. apply (follows_bind (body acc x)); [apply Hbody|].
    intros acc'. apply IH.
Qed.

End Follows.

Section Dispatcher.
Import Hyperbrowser.
Context (E : Env).

Ltac follows_leaf :=
  cbv beta; unfold follows; cbn;
  (split; [first [apply prefix_nil | eexists; reflexivity]
          | first [done | intros [=]]]).

Lemma computer_call_step_follows tm o :
  wp (computer_call_step E tm o) (follows step_of (computer_call_steps o)).
Proof.
  unfold computer_call_step, sleep, page_screenshot, computer_call_steps.
  destruct o as [| | | | |d]; cbn [dyn_get is_computer_call_item];
    do 2 wp_step; cbv beta iota; try follows_leaf.
  destruct (eq_str (get d "type") "computer_call");
    repeat wp_step; follows_leaf.
Qed.

Lemma function_call_step_follows tm c :
  wp (function_call_step E tm c) (follows step_of (function_call_steps c)).
Proof.
  unfold function_call_step, sleep, function_call_steps.
  repeat wp_step; follows_leaf.
Qed.

Lemma dispatch_follows outputs calls :
  wp (dispatch E outputs calls) (follows step_of (schedule outputs calls)).
Proof.
  unfold dispatch, schedule. apply follows_bind.
  - apply follows_for_each, computer_call_step_follows.
  - intros tm. apply follows_for_each, function_call_step_follows.
Qed.

Lemma wp_lift_ok {A B} (a : A) (k : A → M B) Φ :
  wp (k a) Φ → wp (lift (Ok a) ≫= k) Φ.
Proof. intros H s. apply H. Qed.

Lemma wp_lift_raise {A B} e (k : A → M B) Φ :
  Φ [] (Raise e) → wp (lift (Raise e) ≫= k) Φ.
Proof. intros H s. exists []. by rewrite app_nil_r. Qed.

Ltac unfold_bind_browser :=
  unfold bind_browser, init_or_load, get_or_create, create_session, connect,
    page_set_viewport_size, write_stream_url.

Lemma bind_browser_follows state config :
  wp (bind_browser E state config) (follows step_of []).
Proof. unfold_bind_browser. repeat wp_step; follows_leaf. Qed.

(** The whole node, once the head has accepted the message. *)
Lemma take_browser_action_follows state config tool_outputs calls :
  requested_actions state = Ok (tool_outputs, calls) →
  wp (take_browser_action E state config)
     (follows step_of (schedule (iterated tool_outputs) calls)).
Proof.
  intros Hreq. unfold take_browser_action. rewrite Hreq.
  apply wp_lift_ok. cbv beta iota.
  apply follows_silent_bind; [apply bind_browser_follows|].
  intros [[pw br] url]. unfold iterated.
  destruct (iter tool_outputs) as [outputs|e].
  - apply wp_lift_ok.
    rewrite <- (app_nil_r (schedule outputs calls)).
    apply follows_bind; [apply dispatch_follows|].
    intros tm. repeat wp_step; follows_leaf.
  - apply wp_lift_raise. split; [apply prefix_nil | done].
Qed.

Lemma take_browser_action_rejects state config e s :
  requested_actions state = Raise e →
  take_browser_action E state config s = (Raise e, s).
Proof. intros Hreq. unfold take_browser_action. by rewrite Hreq. Qed.

(** The variable a loop threads ends as the last productive item left it. *)
Lemma for_each_last {A B} (body : B → A → M B) (produces : A → bool)
    (R : A → B → Prop) (l : list A) (acc : B) :
  (∀ acc x, wp (body acc x)
               (λ _ r, ∀ b, r = Ok b → if produces x then R x b else b = acc)) →
  wp (for_each body l acc)
     (λ _ r, ∀ b, r = Ok b →
               match last (List.filter produces l) with
               | Some x => R x b
               | None => b = acc
               end).
Proof.
  intros Hbody. revert acc.
  induction l as [|x l IH]; intros acc; cbn [for_each].
  - apply wp_ret. by intros b [= <-].
  - apply wp_bind. eapply wp_mono; [apply Hbody|].
    intros evs1 [b1|e] H1; cbv beta iota; [|by intros b [=]].
    eapply wp_mono; [apply IH|].
    intros evs2 r2 H2 b Hb. specialize (H2 b Hb). specialize (H1 b1 eq_refl).
    cbn [List.filter]. destruct (produces x).
    + destruct (List.filter produces l) as [|y l'] eqn:Hl.
      * cbn in H2 |- *. by rewrite H2.
      * rewrite last_cons_cons.
        destruct (last (y :: l')) eqn:Hlast; [done|].
        by apply last_None in Hlast.
    + by rewrite <- H1.
Qed.

Lemma filter_all {A} (l : list A) : List.filter (λ _, true) l = l.
Proof. induction l as [|x l IH]; [done|]. cbn. by rewrite IH. Qed.

Lemma computer_call_step_result tm0 o :
  wp (computer_call_step E tm0 o)
     (λ _ r, ∀ tm, r = Ok tm →
        if is_computer_call_item o
        then ∃ h page shot, screenshot E h page = Ok shot ∧
                            tm = Some (computer_call_output E shot o)
        else tm = tm0).
Proof.
  unfold computer_call_step, sleep, page_screenshot.
  destruct o as [| | | | |d]; cbn [dyn_get is_computer_call_item];
    do 2 wp_step; cbv beta iota; try (by intros tm [=]).
  destruct (eq_str (get d "type") "computer_call");
    repeat wp_step; intros tm [= <-]; eauto.
Qed.

Lemma function_call_step_result tm0 c :
  wp (function_call_step E tm0 c)
     (λ _ r, ∀ tm, r = Ok tm →
        ∃ h page, handle_function_tool_call E h page c = Ok tm).
Proof.
  unfold function_call_step, sleep.
  repeat wp_step; intros tm [= <-]; eauto.
Qed.

Lemma dispatch_result outputs calls :
  wp (dispatch E outputs calls)
     (λ _ r, ∀ tm, r = Ok tm → result_of_last_action E outputs calls tm).
Proof.
  unfold dispatch. apply wp_bind.
  eapply wp_mono;
    [apply (for_each_last (computer_call_step E) is_computer_call_item
              (λ o tm, ∃ h page shot, screenshot E h page = Ok shot ∧
                                      tm = Some (computer_call_output E shot o)));
     apply computer_call_step_result|].
  intros evs1 [tm1|e] H1; cbv beta iota; [|by intros tm [=]].
  eapply wp_mono;
    [apply (for_each_last (function_call_step E) (λ _, true)
              (λ c tm, ∃ h page, handle_function_tool_call E h page c = Ok tm));
     intros; apply function_call_step_result|].
  intros evs2 r2 H2 tm Htm. specialize (H2 tm Htm).
  rewrite filter_all in H2. unfold result_of_last_action.
  destruct (last calls); [done|]. subst tm. by apply H1.
Qed.

(** C5.  Once the node has accepted the last message, the actions of the
    batch run in the order of the message: every tool output in list
    order, then every function call in list order; a pointer action is its
    driver command, then the settle delay, then its screenshot; a function
    call is the call, then the settle delay; and the steps of one action
    are complete before the next action begins.  A run that fails has run
    a prefix of that schedule. *)
Theorem actions_run_in_message_order (state : CUAState)
    (config : RunnableConfig) (tool_outputs : pyval) (calls : list ToolCall) :
  requested_actions state = Ok (tool_outputs, calls) →
  wp (take_browser_action E state config)
     (follows step_of (schedule (iterated tool_outputs) calls)).
Proof. apply take_browser_action_follows. Qed.

Lemma bind_run {A B} (m : M A) (k : A → M B) s :
  (m ≫= k) s = match m s with
               | (Ok a, s') => k a s'
               | (Raise e, s') => (Raise e, s')
               end.
Proof. reflexivity. Qed.

Lemma for_each_app {A B} (body : B → A → M B) (l1 l2 : list A) acc s :
  for_each body (l1 ++ l2) acc s
    = (for_each body l1 acc ≫= for_each body l2) s.
Proof.
  revert acc s. induction l1 as [|x l1 IH]; intros acc s; [done|].
  cbn [for_each app]. rewrite !bind_run.
  destruct (body acc x s) as [[acc'|e] s']; [|done].
  by rewrite IH, bind_run.
Qed.


End Dispatcher.

Section DispatcherExamples.
Import Hyperbrowser.

Lemma actions_run_in_message_order_witness :
  ∃ evs,
    trace (take_browser_action example_env
             (bound_state [HumanMessage []; busy_reply]) example_config
             initial).2 = evs ∧
    omap step_of evs
      = [StepComputerCall (computer_call "call_a"); StepSettle; StepScreenshot;
         StepComputerCall (computer_call "call_b"); StepSettle; StepScreenshot;
         StepFunctionCall (go_to_url "call_c" "https://example.com");
         StepSettle].
Proof.
  destruct (actions_run_in_message_order example_env
              (bound_state [HumanMessage []; busy_reply]) example_config
              (PList [computer_call "call_a"; computer_call "call_b"])
              [go_to_url "call_c" "https://example.com"]
              eq_refl initial) as (evs & Htrace & _ & Hall).
  exists evs. split; [exact Htrace|].
  apply Hall. vm_compute. reflexivity.
Defined.


End DispatcherExamples.

(** ** Observations the dispatch loops leave untouched *)

Section Silence.
Import Hyperbrowser.
Context (E : Env) {L : Type} (π : Event → option L).
Hypothesis dispatch_unobserved : ∀ ev, is_dispatch_event ev = true → π ev = None.

Lemma omap_unobserved evs :
  forallb is_dispatch_event evs = true → omap π evs = [].
Proof.
  induction evs as [|ev evs IH]; [done|].
  cbn. intros [Hev Hevs]%andb_prop.
  rewrite dispatch_unobserved by done. by apply IH.
Qed.

Lemma follows_unobserved {A} evs (r : result A) :
  forallb is_dispatch_event evs = true → follows π [] evs r.
Proof.
  intros H. unfold follows. rewrite omap_unobserved by done.
  split; [apply prefix_nil | done].
Qed.

Lemma follows_nothing {A} evs (r : result A) :
  follows π [] evs r ↔ omap π evs = [].
Proof.
  unfold follows. split.
  - intros [Hpre _]. by apply prefix_nil_inv in Hpre.
  - intros ->. split; [apply prefix_nil | done].
Qed.

Lemma bind_nothing {A} (l : list A) : l ≫= (λ _, @nil L) = [].
Proof. induction l as [|x l IH]; [done|]. by rewrite bind_cons, IH. Qed.

Lemma computer_call_step_silent tm o :
  wp (computer_call_step E tm o) (follows π []).
Proof.
  unfold computer_call_step, sleep, page_screenshot.
  repeat wp_step; by apply follows_unobserved.
Qed.

Lemma function_call_step_silent tm c :
  wp (function_call_step E tm c) (follows π []).
Proof.
  unfold function_call_step, sleep.
  repeat wp_step; by apply follows_unobserved.
Qed.

Lemma dispatch_silent outputs calls :
  wp (dispatch E outputs calls) (follows π []).
Proof.
  unfold dispatch. apply follows_silent_bind.
  - rewrite <- (bind_nothing outputs).
    apply follows_for_each, computer_call_step_silent.
  - intros tm. rewrite <- (bind_nothing calls).
    apply follows_for_each, function_call_step_silent.
Qed.

(** The whole action node is silent for [π] when its connection block
    is; the update keeps the session id of the state and carries the
    stream URL the connection block settled on. *)
Lemma take_browser_action_silent state config (Q : option string → Prop) :
  wp (bind_browser E state config)
     (λ evs r, omap π evs = [] ∧ ∀ pw br url, r = Ok (pw, br, url) → Q url) →
  wp (take_browser_action E state config)
     (λ evs r, omap π evs = [] ∧
               ∀ u, r = Ok u →
                    u_session_id u = session_id state ∧ Q (u_stream_url u)).
Proof.
  intros Hbind. unfold take_browser_action.
  destruct (requested_actions state) as [[tool_outputs calls]|e].
  2: { apply wp_lift_raise. by split. }
  apply wp_lift_ok. cbv beta iota. apply wp_bind.
  eapply wp_mono; [exact Hbind|].
  intros evs1 [[[pw br] url]|e] [Hsilent HQ]; cbv beta iota; [|by split].
  specialize (HQ pw br url eq_refl).
  destruct (iter tool_outputs) as [outputs|e].
  2: { apply wp_lift_raise. rewrite app_nil_r. by split. }
  apply wp_lift_ok. apply wp_bind.
  eapply wp_mono; [apply dispatch_silent|].
  intros evs2 [tm|e] Hd%follows_nothing; cbv beta iota.
  - repeat wp_step; rewrite !omap_app, Hsilent, Hd;
      (split; [done|]); intros u [= <-]; done.
  - rewrite omap_app, Hsilent, Hd. by split.
Qed.

End Silence.

(** ** Session acquisition *)

Section Sessions.
Import Hyperbrowser.
Context (E : Env).

Ltac unfold_nodes :=
  unfold call_model, bind_browser, init_or_load_without_config, init_or_load,
    get_or_create, create_session, connect, page_set_viewport_size,
    page_screenshot, write_stream_url.

Lemma opt_truthy_some (o : option string) :
  opt_truthy o = true → ∃ s, o = Some s ∧ truthy (PStr s) = true.
Proof. destruct o as [s|]; [by exists s | done]. Qed.

Lemma init_or_load_without_config_known state sid :
  session_id state = Some sid → truthy (PStr sid) = true →
  wp (init_or_load_without_config E state)
     (λ evs r, (evs = [] ∨ ∃ key, evs = [EvSessionGet key sid]) ∧
               ∀ sess, r = Ok sess →
                       ∃ h key, sessions_get E h key sid = Ok sess).
Proof.
  intros Hsid Htruthy. unfold_nodes. rewrite Hsid, Htruthy.
  repeat wp_step; (split; [eauto | intros sess [=]; subst; eauto]).
Qed.

Lemma init_or_load_known state config sid :
  session_id state = Some sid → truthy (PStr sid) = true →
  wp (init_or_load E state config)
     (λ evs r, (evs = [] ∨ ∃ key, evs = [EvSessionGet key sid]) ∧
               ∀ sess, r = Ok sess →
                       ∃ h key, sessions_get E h key sid = Ok sess).
Proof.
  intros Hsid Htruthy. unfold_nodes. rewrite Hsid, Htruthy.
  repeat wp_step; (split; [eauto | intros sess [=]; subst; eauto]).
Qed.

Lemma init_or_load_without_config_fresh state :
  opt_truthy (session_id state) = false →
  wp (init_or_load_without_config E state)
     (λ evs r,
        (evs = [] ∨
         ∃ key, evs = [EvSessionCreate key true DEFAULT_DISPLAY_WIDTH
                         DEFAULT_DISPLAY_HEIGHT]) ∧
        ∀ sess, r = Ok sess → ∃ h key, sessions_create E h key = Ok sess).
Proof.
  intros Hfresh. unfold_nodes.
  destruct (session_id state) as [sid|]; cbn in Hfresh;
    [change (negb (String.eqb sid "")) with (truthy (PStr sid)) in Hfresh;
     rewrite Hfresh|];
    repeat wp_step; (split; [eauto | intros sess [=]; subst; eauto]).
Qed.

Lemma init_or_load_fresh state config :
  opt_truthy (session_id state) = false →
  wp (init_or_load E state config)
     (λ evs r,
        (evs = [] ∨
         ∃ key, evs = [EvSessionCreate key true DEFAULT_DISPLAY_WIDTH
                         DEFAULT_DISPLAY_HEIGHT]) ∧
        ∀ sess, r = Ok sess → ∃ h key, sessions_create E h key = Ok sess).
Proof.
  intros Hfresh. unfold_nodes.
  destruct (session_id state) as [sid|]; cbn in Hfresh;
    [change (negb (String.eqb sid "")) with (truthy (PStr sid)) in Hfresh;
     rewrite Hfresh|];
    repeat wp_step; (split; [eauto | intros sess [=]; subst; eauto]).
Qed.

Hypothesis faithful : faithful_ids E.

Ltac use_provider :=
  pose proof faithful as [Hget Hcreate];
  repeat match goal with
         | H : sessions_get E _ _ _ = Ok _ |- _ => apply Hget in H
         | H : sessions_create E _ _ = Ok _ |- _ => apply Hcreate in H
         end.

(** A model step creates at most one session, none when the state knows
    a session id, and leaves a non-empty session id in its update. *)
Lemma call_model_sessions state :
  wp (call_model E state)
     (λ evs r,
        (length (omap creation evs) ≤ 1)%nat ∧
        (opt_truthy (session_id state) = true → omap creation evs = []) ∧
        ∀ conv u, r = Ok (conv, u) →
          opt_truthy (u_session_id u) = true ∧
          (opt_truthy (session_id state) = true →
           u_session_id u = session_id state)).
Proof.
  unfold_nodes.
  repeat wp_step; cbv beta; cbn in *;
    (split; [lia|]);
    (split; [try done; congruence|]);
    try (by intros conv u [=]);
    intros conv u [= <- <-]; cbn;
    use_provider; subst; split; try done; try congruence.
Qed.

Lemma creation_unobserved ev : is_dispatch_event ev = true → creation ev = None.
Proof. by destruct ev. Qed.

Lemma take_browser_action_sessions state config :
  opt_truthy (session_id state) = true →
  wp (take_browser_action E state config)
     (λ evs r, omap creation evs = [] ∧
               ∀ u, r = Ok u → u_session_id u = session_id state).
Proof.
  intros (sid & Hsid & Htruthy)%opt_truthy_some.
  eapply wp_mono.
  - apply (take_browser_action_silent E creation creation_unobserved
             state config (λ _, True)).
    unfold_nodes. rewrite Hsid, Htruthy.
    repeat wp_step; by cbn.
  - intros evs r [Hsilent Hu]. split; [done|].
    intros u Hok. by apply Hu.
Qed.

(** From a state that knows its session, no step of the workflow creates
    one. *)
Lemma run_from_keeps_session config steps :
  ∀ node state,
    opt_truthy (session_id state) = true →
    wp (run_from E steps config node state) (λ evs _, omap creation evs = []).
Proof.
  induction steps as [|steps IH]; intros node state Hknown.
  - destruct node; by apply wp_ret.
  - destruct node; cbn [run_from]; [| |by apply wp_ret].
    + apply wp_bind. eapply wp_mono; [apply call_model_sessions|].
      intros evs1 [[conv u]|e] (_ & Hnone & Hu); cbv beta iota;
        [|by apply Hnone].
      destruct (Hu conv u eq_refl) as [Htruthy _].
      apply wp_bind, wp_lift.
      destruct (take_action_or_end (apply_update conv u)) as [next|e];
        [|by rewrite app_nil_r; apply Hnone].
      eapply wp_mono; [by apply IH|].
      intros evs2 r2 Hrest. cbn. by rewrite omap_app, Hnone, Hrest.
    + apply wp_bind.
      eapply wp_mono; [by apply take_browser_action_sessions|].
      intros evs1 [u|e] [Hnone Hu]; cbv beta iota; [|done].
      eapply wp_mono; [apply IH; cbn; by rewrite (Hu u)|].
      intros evs2 r2 Hrest. by rewrite omap_app, Hnone, Hrest.
Qed.

Lemma graph_sessions config steps input :
  wp (graph E steps config input)
     (λ evs _, (length (omap creation evs) ≤ 1)%nat).
Proof.
  unfold graph. destruct steps as [|steps]; [by apply wp_ret; cbn; lia|].
  cbn [run_from]. apply wp_bind.
  eapply wp_mono; [apply call_model_sessions|].
  intros evs1 [[conv u]|e] (Hone & _ & Hu); cbv beta iota; [|done].
  destruct (Hu conv u eq_refl) as [Htruthy _].
  apply wp_bind, wp_lift.
  destruct (take_action_or_end (apply_update conv u)) as [next|e];
    [|by rewrite app_nil_r].
  eapply wp_mono; [by apply run_from_keeps_session|].
  intros evs2 r2 Hrest. cbn.
  by rewrite omap_app, Hrest, app_nil_r.
Qed.

End Sessions.

Section SessionExamples.
Import Hyperbrowser.

Lemma example_env_faithful : faithful_ids example_env.
Proof. split; [by intros h key sid sess [= <-] | by intros h key sess [= <-]]. Qed.

Lemma acting_env_faithful : faithful_ids acting_env.
Proof. exact example_env_faithful. Qed.

End SessionExamples.

(** ** The side channel *)

Section SideChannel.
Import Hyperbrowser.
Context (E : Env).
Hypothesis live : live_urls E.

Ltac unfold_nodes :=
  unfold call_model, bind_browser, init_or_load_without_config, init_or_load,
    get_or_create, create_session, connect, page_set_viewport_size,
    page_screenshot, write_stream_url.

Ltac use_provider :=
  pose proof live as [Hget Hcreate];
  repeat match goal with
         | H : sessions_get E _ _ _ = Ok _ |- _ => apply Hget in H
         | H : sessions_create E _ _ = Ok _ |- _ => apply Hcreate in H
         end.

(** A model step runs no action, writes the stream URL at most once and
    not at all when the state has one, and leaves a stream URL in its
    update. *)
Lemma call_model_stream state :
  wp (call_model E state)
     (λ evs r,
        omap action evs = [] ∧
        (length (omap stream_write evs) ≤ 1)%nat ∧
        (opt_truthy (stream_url state) = true → omap stream_write evs = []) ∧
        ∀ conv u, r = Ok (conv, u) →
          opt_truthy (u_stream_url u) = true ∧
          (opt_truthy (stream_url state) = false →
           length (omap stream_write evs) = 1%nat)).
Proof.
  unfold_nodes.
  repeat wp_step; cbv beta; cbn in *;
    (split; [done|]); (split; [lia|]);
    (split; [try done; congruence|]);
    try (by intros conv u [=]);
    intros conv u [= <- <-]; cbn;
    use_provider; split; try done; try congruence.
Qed.

Lemma stream_write_unobserved ev :
  is_dispatch_event ev = true → stream_write ev = None.
Proof. by destruct ev. Qed.

Lemma take_browser_action_stream state config :
  opt_truthy (stream_url state) = true →
  wp (take_browser_action E state config)
     (λ evs r, omap stream_write evs = [] ∧
               ∀ u, r = Ok u → u_stream_url u = stream_url state).
Proof.
  intros Hknown. eapply wp_mono.
  - apply (take_browser_action_silent E stream_write stream_write_unobserved
             state config (λ url, url = stream_url state)).
    unfold_nodes. rewrite Hknown.
    repeat wp_step; cbn; (split; [done|]); by intros pw br url [= _ _ <-].
  - intros evs r [Hsilent Hu]. split; [done|].
    intros u Hok. by apply Hu.
Qed.

(** From a state with a stream URL, no step of the workflow writes one. *)
Lemma run_from_keeps_stream config steps :
  ∀ node state,
    opt_truthy (stream_url state) = true →
    wp (run_from E steps config node state)
       (λ evs _, omap stream_write evs = []).
Proof.
  induction steps as [|steps IH]; intros node state Hknown.
  - destruct node; by apply wp_ret.
  - destruct node; cbn [run_from]; [| |by apply wp_ret].
    + apply wp_bind. eapply wp_mono; [apply call_model_stream|].
      intros evs1 [[conv u]|e] (_ & _ & Hnone & Hu); cbv beta iota;
        [|by apply Hnone].
      destruct (Hu conv u eq_refl) as [Htruthy _].
      apply wp_bind, wp_lift.
      destruct (take_action_or_end (apply_update conv u)) as [next|e];
        [|by rewrite app_nil_r; apply Hnone].
      eapply wp_mono; [by apply IH|].
      intros evs2 r2 Hrest. cbn. by rewrite omap_app, Hnone, Hrest.
    + apply wp_bind.
      eapply wp_mono; [by apply take_browser_action_stream|].
      intros evs1 [u|e] [Hnone Hu]; cbv beta iota; [|done].
      eapply wp_mono; [apply IH; cbn; by rewrite (Hu u)|].
      intros evs2 r2 Hrest. by rewrite omap_app, Hnone, Hrest.
Qed.

Lemma graph_stream config steps input :
  wp (graph E (S steps) config input)
     (λ evs r,
        (length (omap stream_write evs) ≤ 1)%nat ∧
        (opt_truthy (stream_url input) = true → omap stream_write evs = []) ∧
        (opt_truthy (stream_url input) = false → is_ok r = true →
         length (omap stream_write evs) = 1%nat) ∧
        ∃ before after,
          evs = before ++ after ∧
          omap action before = [] ∧ omap stream_write after = []).
Proof.
  unfold graph. cbn [run_from]. apply wp_bind.
  eapply wp_mono; [apply call_model_stream|].
  intros evs1 [[conv u]|e] (Hquiet & Hone & Hnone & Hu); cbv beta iota.
  2: { repeat split; [done|done|done|].
       exists evs1, []. by rewrite app_nil_r. }
  destruct (Hu conv u eq_refl) as [Htruthy Hexact].
  apply wp_bind, wp_lift.
  destruct (take_action_or_end (apply_update conv u)) as [next|e].
  2: { rewrite app_nil_r. repeat split; [done|done|done|].
       exists evs1, []. by rewrite app_nil_r. }
  eapply wp_mono; [by apply run_from_keeps_stream|].
  intros evs2 r2 Hrest. cbn [app].
  rewrite omap_app, Hrest, app_nil_r.
  repeat split; [done|done|by intros Hfresh _; apply Hexact|].
  by exists evs1, evs2.
Qed.

End SideChannel.

(** C8, as amended.  With a session provider that reports a non-empty
    live-view URL: once the [stream_url] field of the state is populated,
    neither node writes it to the side channel again; and a run of the
    workflow writes it at most once, however many cycles it takes: not at
    all when the input state already has a stream URL, exactly once when it
    has none and the run ends without an error; and every such write comes
    before the first action of the run. *)
Theorem stream_url_written_at_most_once (E : Env) :
  live_urls E →
  (∀ state config,
     opt_truthy (stream_url state) = true →
     wp (Hyperbrowser.call_model E state)
        (λ evs _, omap stream_write evs = []) ∧
     wp (Hyperbrowser.take_browser_action E state config)
        (λ evs _, omap stream_write evs = [])) ∧
  (∀ steps config input,
     wp (Hyperbrowser.graph E (S steps) config input)
        (λ evs r,
           (length (omap stream_write evs) ≤ 1)%nat ∧
           (opt_truthy (stream_url input) = true → omap stream_write evs = []) ∧
           (opt_truthy (stream_url input) = false → is_ok r = true →
            length (omap stream_write evs) = 1%nat) ∧
           ∃ before after,
             evs = before ++ after ∧
             omap action before = [] ∧ omap stream_write after = [])).
Proof.
  intros Hlive. split.
  - intros state config Hknown. split.
    + eapply wp_mono; [by apply call_model_stream|].
      intros evs r (_ & _ & Hnone & _). by apply Hnone.
    + eapply wp_mono; [by apply take_browser_action_stream|].
      by intros evs r [Hnone _].
  - intros steps config input. by apply graph_stream.
Qed.

Section SideChannelExamples.
Import Hyperbrowser.

Lemma acting_env_live : live_urls acting_env.
Proof. split; [by intros h key sid sess [= <-] | by intros h key sess [= <-]]. Qed.

Lemma stream_url_written_at_most_once_witness :
  (∃ evs,
     trace (take_browser_action acting_env
              (bound_state [HumanMessage []; first_reply]) example_config
              initial).2 = trace initial ++ evs ∧
     omap stream_write evs = []) ∧
  (∃ evs,
     trace (graph acting_env 5 example_config fresh_input initial).2
       = trace initial ++ evs ∧
     length (omap stream_write evs) = 1%nat).
Proof.
  destruct (stream_url_written_at_most_once acting_env acting_env_live)
    as [Hstep Hrun].
  split.
  - destruct (Hstep (bound_state [HumanMessage []; first_reply])
                example_config eq_refl) as [_ Haction].
    exact (Haction initial).
  - destruct (Hrun 4%nat example_config fresh_input initial)
      as (evs & Htrace & _ & _ & Hexact & _).
    exists evs. split; [exact Htrace|].
    apply Hexact; vm_compute; reflexivity.
Defined.

(** C8 as stated fails.  A run whose input state already carries a stream
    URL ends without an error and writes nothing to the side channel; and
    with a provider that reports no live-view URL the field is never
    populated, so a run with one action cycle writes three times, twice
    of them after the action. *)
Lemma stream_url_not_exactly_once :
  (is_ok (graph acting_env 5 example_config
            (bound_state [HumanMessage [PStr "and now?"]]) initial).1 = true ∧
   omap stream_write
     (trace (graph acting_env 5 example_config
               (bound_state [HumanMessage [PStr "and now?"]]) initial).2) = []) ∧
  (is_ok (graph mute_env 5 example_config fresh_input initial).1 = true ∧
   omap stream_write
     (trace (graph mute_env 5 example_config fresh_input initial).2)
     = [None; None; None]).
Proof. vm_compute. auto. Qed.

End SideChannelExamples.

(** ** The first-turn screenshot *)

Section FirstTurn.
Import Hyperbrowser.
Context (E : Env).

Ltac unfold_nodes :=
  unfold call_model, bind_browser, init_or_load_without_config, init_or_load,
    get_or_create, create_session, connect, page_set_viewport_size,
    page_screenshot, write_stream_url.

Lemma append_needs_list msgs item conv :
  append_to_first_content msgs item = Ok conv →
  first_content_is_list msgs = true.
Proof.
  unfold append_to_first_content, first_content_is_list.
  destruct msgs as [|m0 rest]; [done|]. by destruct (content m0).
Qed.

(** No token in sight and the last message is no tool message: one
    screenshot, attached to the first message, then the invocation. *)
Lemma call_model_first_turn state :
  last_has_type (messages state) "tool" = false →
  last_ai_token (messages state) = Ok PNone →
  wp (call_model E state)
     (λ evs r,
        (first_content_is_list (messages state) = false →
         is_ok r = false ∧ invocations evs = []) ∧
        ∀ conv u, r = Ok (conv, u) →
          ∃ h page shot,
            screenshot E h page = Ok shot ∧
            append_to_first_content (messages state) (first_turn_image E shot)
              = Ok conv ∧
            omap sight evs
              = [inl page; inr (InMsg <$> conv, PNone, hb_tools E)]).
Proof.
  intros Hfull Htoken. unfold_nodes. rewrite Hfull, Htoken.
  do 2 wp_step. cbv beta iota. cbn [is_none].
  repeat wp_step; cbv beta;
    (split;
     [ intros Hshape; first [ by split | exfalso;
         match goal with
         | H : append_to_first_content _ _ = Ok _ |- _ =>
             apply append_needs_list in H; congruence
         end ]
     | first [ by intros conv u [=]
             | intros conv u [= <- <-]; do 3 eexists;
               split; [eassumption|]; split; [eassumption|]; reflexivity ] ]).
Qed.

(** A tool turn, or a token in sight: no screenshot, and the
    conversation is left as it was. *)
Lemma call_model_later_turn state :
  (last_has_type (messages state) "tool" = true ∨
   ∃ token, last_has_type (messages state) "tool" = false ∧
            last_ai_token (messages state) = Ok token ∧
            is_none token = false) →
  wp (call_model E state)
     (λ evs r, omap captured evs = [] ∧
               ∀ conv u, r = Ok (conv, u) → conv = messages state).
Proof.
  intros [Htool | (token & Hfull & Htoken & Hsome)]; unfold_nodes.
  - rewrite Htool.
    repeat wp_step; cbv beta;
      (split; [done | first [by intros conv u [=] | by intros conv u [= <- _]]]).
  - rewrite Hfull, Htoken.
    do 2 wp_step. cbv beta iota. rewrite Hsome.
    repeat wp_step; cbv beta;
      (split; [done | first [by intros conv u [=] | by intros conv u [= <- _]]]).
Qed.

Lemma call_model_one_request state :
  wp (call_model E state) (λ evs _, (length (invocations evs) ≤ 1)%nat).
Proof. unfold_nodes. repeat wp_step; cbv beta; cbn; lia. Qed.

Lemma call_model_tool_turn_requests state :
  last_has_type (messages state) "tool" = true →
  wp (call_model E state) (λ evs _, Forall tool_only (invocations evs)).
Proof.
  intros Htool. unfold_nodes. rewrite Htool.
  unfold last_has_type in Htool.
  destruct (last_message (messages state)) as [last|]; [|done].
  repeat wp_step; cbv beta; cbn;
    repeat (apply List.Forall_cons; [by exists last|]); apply List.Forall_nil.
Qed.

Lemma invocation_unobserved ev :
  is_dispatch_event ev = true → invocation ev = None.
Proof. by destruct ev. Qed.

Lemma take_browser_action_requests state config :
  wp (take_browser_action E state config) (λ evs _, invocations evs = []).
Proof.
  eapply wp_mono.
  - apply (take_browser_action_silent E invocation invocation_unobserved
             state config (λ _, True)).
    unfold_nodes. repeat wp_step; by cbn.
  - by intros evs r [Hsilent _].
Qed.

Lemma take_action_or_end_next state next :
  take_action_or_end state = Ok next → next ≠ call_model_node.
Proof.
  unfold take_action_or_end.
  destruct (last_message (messages state)) as [last|]; [|by intros [= <-]].
  destruct (additional_kwargs last) as [kwargs|]; [|by intros [= <-]].
  destruct (negb (truthy (PDict kwargs))); [by intros [= <-]|].
  destruct (is_computer_tool_call _) as [computer|]; [|done].
  cbn [rbind]. by destruct (_ && _); intros [= <-].
Qed.

(** Past the first model step, every request to the model is a tool
    turn. *)
Lemma run_from_requests config steps :
  ∀ node state,
    (node = call_model_node → last_has_type (messages state) "tool" = true) →
    wp (run_from E steps config node state)
       (λ evs _, Forall tool_only (invocations evs)).
Proof.
  induction steps as [|steps IH]; intros node state Hnode.
  - destruct node; by apply wp_ret, List.Forall_nil.
  - destruct node; cbn [run_from]; [| |by apply wp_ret, List.Forall_nil].
    + apply wp_bind.
      eapply wp_mono; [by apply call_model_tool_turn_requests, Hnode|].
      intros evs1 [[conv u]|e] Hfirst; cbv beta iota; [|done].
      apply wp_bind, wp_lift.
      destruct (take_action_or_end (apply_update conv u)) as [next|e] eqn:Hnext;
        [|by rewrite app_nil_r].
      eapply wp_mono.
      * apply IH. intros ->. by apply take_action_or_end_next in Hnext.
      * intros evs2 r2 Hrest. cbn [app]. unfold invocations in *.
        rewrite omap_app. by apply Forall_app.
    + apply wp_bind.
      eapply wp_mono; [apply take_browser_action_requests|].
      intros evs1 [u|e] Hnone; cbv beta iota; [|by rewrite Hnone].
      eapply wp_mono.
      * apply IH. unfold reinvoke_model_or_end.
        by destruct (last_has_type (messages (apply_update _ _)) "tool").
      * intros evs2 r2 Hrest. unfold invocations in *.
        by rewrite omap_app, Hnone.
Qed.

Lemma graph_requests config steps input :
  wp (graph E steps config input)
     (λ evs _, ∃ first later,
                 invocations evs = first ++ later ∧
                 (length first ≤ 1)%nat ∧ Forall tool_only later).
Proof.
  unfold graph. destruct steps as [|steps].
  { apply wp_ret. exists [], [].
    split; [done|]. split; [cbn; lia | apply List.Forall_nil]. }
  cbn [run_from]. apply wp_bind.
  eapply wp_mono; [apply call_model_one_request|].
  intros evs1 [[conv u]|e] Hone; cbv beta iota.
  2: { exists (invocations evs1), []. rewrite app_nil_r.
       split; [done|]. split; [done | apply List.Forall_nil]. }
  apply wp_bind, wp_lift.
  destruct (take_action_or_end (apply_update conv u)) as [next|e] eqn:Hnext.
  2: { rewrite app_nil_r. exists (invocations evs1), []. rewrite app_nil_r.
       split; [done|]. split; [done | apply List.Forall_nil]. }
  eapply wp_mono.
  - apply run_from_requests. intros ->.
    by apply take_action_or_end_next in Hnext.
  - intros evs2 r2 Hrest. cbn [app].
    exists (invocations evs1), (invocations evs2).
    split; [by unfold invocations; rewrite omap_app|]. by split.
Qed.

End FirstTurn.

(** ** Rules for runs from a given history *)

Section AtRules.
Context {A : Type}.
Implicit Types Φ : list Event → result A → Prop.

Lemma at_ret h (a : A) Φ : Φ [] (Ok a) → wp_at h (mret a) Φ.
Proof. intros H s <-. exists []. by rewrite app_nil_r. Qed.

Lemma at_lift h (r : result A) Φ : Φ [] r → wp_at h (lift r) Φ.
Proof. intros H s <-. exists []. by rewrite app_nil_r. Qed.

(** The collaborator answers from the history before the request. *)
Lemma at_await h opened ev (answer : list Event → result A) Φ :
  Φ [ev] (answer h) → wp_at h (await opened ev answer) Φ.
Proof.
  intros H s <-. exists [ev]. unfold await. cbn [fst snd].
  by rewrite handle_page_event_trace.
Qed.

Lemma at_mono h (m : M A) Φ Ψ :
  wp_at h m Φ → (∀ evs r, Φ evs r → Ψ evs r) → wp_at h m Ψ.
Proof.
  intros Hm Himp s Hs. destruct (Hm s Hs) as (evs & Htr & HΦ).
  exists evs. auto.
Qed.

Lemma at_wp h (m : M A) Φ : wp m Φ → wp_at h m Φ.
Proof. intros Hm s <-. apply Hm. Qed.

Lemma at_and h (m : M A) Φ Ψ :
  wp_at h m Φ → wp m Ψ → wp_at h m (λ evs r, Φ evs r ∧ Ψ evs r).
Proof.
  intros HΦ HΨ s Hs. destruct (HΦ s Hs) as (evs & Htr & H1).
  destruct (HΨ s) as (evs' & Htr' & H2). exists evs. split; [done|].
  split; [done|]. rewrite Hs, Htr in Htr'. by apply app_inv_head in Htr' as ->.
Qed.

Lemma at_ext h (m m' : M A) Φ :
  (∀ s, m s = m' s) → wp_at h m' Φ → wp_at h m Φ.
Proof. intros Heq Hm s Hs. rewrite Heq. by apply Hm. Qed.

Lemma at_bind {B} h (m : M B) (k : B → M A) Φ :
  wp_at h m (λ evs1 r,
               match r with
               | Ok b => wp_at (h ++ evs1) (k b) (λ evs2 r2, Φ (evs1 ++ evs2) r2)
               | Raise e => Φ evs1 (Raise e)
               end) →
  wp_at h (m ≫= k) Φ.
Proof.
  intros Hm s Hs. destruct (Hm s Hs) as (evs1 & Htr1 & H1).
  unfold mbind, M_bind, bind.
  destruct (m s) as [[b|e] s1]; cbn [fst snd] in *.
  - destruct (H1 s1 Htr1) as (evs2 & Htr2 & H2).
    exists (evs1 ++ evs2). split; [|done].
    by rewrite Htr2, app_assoc.
  - by exists evs1.
Qed.

End AtRules.

Lemma at_emit h ev (Φ : list Event → result unit → Prop) :
  Φ [ev] (Ok tt) → wp_at h (emit ev) Φ.
Proof. intros H s <-. by exists [ev]. Qed.

Lemma at_read_page h (Φ : list Event → result Page → Prop) :
  (∀ p, Φ [] (Ok p)) →
  Φ [] (Raise (AssertionError "page is not bound")) →
  wp_at h read_page Φ.
Proof.
  intros Hok Herr s <-. exists []. rewrite app_nil_r. unfold read_page.
  destruct (page_var s); cbn [fst snd]; auto.
Qed.

Lemma at_bind_page h p (Φ : list Event → result unit → Prop) :
  Φ [] (Ok tt) → wp_at h (bind_page p) Φ.
Proof. intros H s <-. exists []. by rewrite app_nil_r. Qed.

(** One step of symbolic execution from a known history. *)
Ltac at_step :=
  cbv beta iota;
  lazymatch goal with
  | |- wp_at _ (mbind _ _) _ => apply at_bind
  | |- wp_at _ (mret _) _ => apply at_ret
  | |- wp_at _ (lift _) _ => apply at_lift
  | |- wp_at _ (raise _) _ => apply at_lift
  | |- wp_at _ (emit _) _ => apply at_emit
  | |- wp_at _ (await _ _ _) _ => apply at_await
  | |- wp_at _ read_page _ => apply at_read_page; [intros ?|]
  | |- wp_at _ (bind_page _) _ => apply at_bind_page
  | |- wp_at _ (if ?b then _ else _) _ => destruct b eqn:?
  | |- wp_at _ (match ?x with _ => _ end) _ => destruct x eqn:?
  | |- match ?r with Ok _ => _ | Raise _ => _ end => destruct r eqn:?
  | |- wp_at _ (let '(_, _) := ?p in _) _ => destruct p
  end.

(** ** The result of a batch *)

Section BatchResult.
Import Hyperbrowser.
Context (E : Env).

Lemma last_filter_split {A} (f : A → bool) (l : list A) (x : A) :
  last (List.filter f l) = Some x →
  ∃ l1 l2, l = l1 ++ x :: l2 ∧ f x = true ∧ List.filter f l2 = [].
Proof.
  induction l as [|y l IH]; [done|]. cbn [List.filter].
  destruct (f y) eqn:Hy.
  - destruct (List.filter f l) as [|z l'] eqn:Hl.
    + intros [= <-]. by exists [], l.
    + rewrite last_cons_cons. intros (l1 & l2 & -> & Hx & Hl2)%IH.
      by exists (y :: l1), l2.
  - intros (l1 & l2 & -> & Hx & Hl2)%IH. by exists (y :: l1), l2.
Qed.

Lemma for_each_runs {A B} (body : B → A → M B) (l : list A) (acc : B) :
  (∀ acc x, wp (body acc x) (λ _ _, True)) →
  wp (for_each body l acc) (λ _ _, True).
Proof.
  intros Hbody. revert acc.
  induction l as [|x l IH]; intros acc; cbn [for_each].
  - by apply wp_ret.
  - apply wp_bind. eapply wp_mono; [apply Hbody|].
    intros evs1 [b|e] _; [|done]. eapply wp_mono; [apply IH|]. done.
Qed.

Lemma computer_call_step_runs tm o :
  wp (computer_call_step E tm o) (λ _ _, True).
Proof.
  eapply wp_mono; [apply computer_call_step_follows|]. done.
Qed.

Lemma function_call_step_runs tm c :
  wp (function_call_step E tm c) (λ _ _, True).
Proof.
  eapply wp_mono; [apply function_call_step_follows|]. done.
Qed.

(** A computer call, from the history [h]: the command, the settle delay
    and the screenshot, and the message built from the driver's answer to
    that screenshot. *)
Lemma computer_call_step_at h tm0 o :
  is_computer_call_item o = true →
  wp_at h (computer_call_step E tm0 o)
    (λ evs r, ∀ tm, r = Ok tm →
       ∃ page page' shot,
         evs = [EvComputerCall page o; EvSleep 1; EvScreenshot page'] ∧
         screenshot E (h ++ [EvComputerCall page o; EvSleep 1]) page'
           = Ok shot ∧
         tm = Some (computer_call_output E shot o)).
Proof.
  destruct o as [| | | | |d]; try done. cbn [is_computer_call_item].
  intros Htype. unfold computer_call_step, sleep, page_screenshot.
  cbn [dyn_get]. do 2 at_step. rewrite Htype.
  repeat at_step; try (by intros tm [=]).
  intros tm [= <-]. do 3 eexists. split; [reflexivity|].
  split; [|reflexivity].
  match goal with H : screenshot E _ _ = Ok _ |- _ => rewrite <- H end.
  f_equal. by rewrite ?app_nil_r, <- ?app_assoc.
Qed.

(** A function call, from the history [h]: the call and the settle delay,
    and what the handler answered to that call. *)
Lemma function_call_step_at h tm0 c :
  wp_at h (function_call_step E tm0 c)
    (λ evs r, ∀ tm, r = Ok tm →
       ∃ page, evs = [EvFunctionCall page c; EvSleep 1] ∧
               handle_function_tool_call E h page c = Ok tm).
Proof.
  unfold function_call_step, sleep.
  repeat at_step; try (by intros tm [=]).
  intros tm [= <-]. eexists. split; [reflexivity|].
  match goal with
  | H : handle_function_tool_call E _ _ _ = Ok _ |- _ => rewrite <- H
  end.
  f_equal. by rewrite ?app_nil_r.
Qed.

(** Tool outputs of other kinds run no action and leave the tool message
    as it was. *)
Lemma unknown_outputs_leave_message (l : list pyval) (acc : option Message) :
  List.filter is_computer_call_item l = [] →
  wp (for_each (computer_call_step E) l acc)
     (λ evs r, omap step_of evs = [] ∧ ∀ tm, r = Ok tm → tm = acc).
Proof.
  intros Hnone. apply wp_and.
  - eapply wp_mono;
      [apply (follows_for_each step_of (computer_call_step E) computer_call_steps),
         computer_call_step_follows|].
    intros evs r [Hprefix _].
    assert (Hsched : l ≫= computer_call_steps = []).
    { clear Hprefix. induction l as [|o l IH]; [done|].
      cbn [List.filter] in Hnone. rewrite bind_cons.
      unfold computer_call_steps at 1.
      destruct (is_computer_call_item o); [done|]. by apply IH. }
    rewrite Hsched in Hprefix. by apply prefix_nil_inv in Hprefix.
  - eapply wp_mono;
      [apply (for_each_last (computer_call_step E) is_computer_call_item
                (λ o tm, ∃ h page shot, screenshot E h page = Ok shot ∧
                                        tm = Some (computer_call_output E shot o)));
       apply computer_call_step_result|].
    intros evs r Hlast tm Htm. specialize (Hlast tm Htm).
    by rewrite Hnone in Hlast.
Qed.

(** The loop over the tool outputs, from the history [h], when [o] is the
    last computer call among them. *)
Lemma computer_calls_at h (l1 l2 : list pyval) (o : pyval)
    (acc : option Message) :
  is_computer_call_item o = true →
  List.filter is_computer_call_item l2 = [] →
  wp_at h (for_each (computer_call_step E) (l1 ++ o :: l2) acc)
    (λ evs r, ∀ tm, r = Ok tm →
       ∃ before page page' shot after,
         evs = before
                 ++ [EvComputerCall page o; EvSleep 1; EvScreenshot page']
                 ++ after ∧
         omap step_of after = [] ∧
         screenshot E (h ++ before ++ [EvComputerCall page o; EvSleep 1])
           page' = Ok shot ∧
         tm = Some (computer_call_output E shot o)).
Proof.
  intros Ho Hl2.
  eapply at_ext; [intros s; apply for_each_app|]. apply at_bind.
  eapply at_mono; [apply at_wp, for_each_runs, computer_call_step_runs|].
  intros evs1 [tm1|e] _; cbv beta iota; [|by intros tm [=]].
  cbn [for_each]. apply at_bind.
  eapply at_mono; [by apply computer_call_step_at|].
  intros evs2 [tm2|e] Hstep; cbv beta iota; [|by intros tm [=]].
  destruct (Hstep tm2 eq_refl) as (page & page' & shot & -> & Hshot & ->).
  eapply at_mono; [by apply at_wp, unknown_outputs_leave_message|].
  intros evs3 r [Hquiet Hsame] tm Htm. specialize (Hsame tm Htm). subst tm.
  exists evs1, page, page', shot, evs3.
  split; [done|]. split; [done|]. split; [|done].
  by rewrite app_assoc.
Qed.

Lemma dispatch_at h outputs calls :
  wp_at h (dispatch E outputs calls)
    (λ evs r, ∀ tm, r = Ok tm →
       last_action_result E h evs outputs calls tm).
Proof.
  unfold dispatch, last_action_result.
  destruct (last calls) as [c|] eqn:Hlast.
  - apply last_Some in Hlast as [front ->]. apply at_bind.
    eapply at_mono; [apply at_wp, for_each_runs, computer_call_step_runs|].
    intros evs1 [tm1|e] _; cbv beta iota; [|by intros tm [=]].
    eapply at_ext; [intros s; apply for_each_app|]. apply at_bind.
    eapply at_mono; [apply at_wp, for_each_runs, function_call_step_runs|].
    intros evs2 [tm2|e] _; cbv beta iota; [|by intros tm [=]].
    cbn [for_each]. apply at_bind.
    eapply at_mono; [apply function_call_step_at|].
    intros evs3 [tm3|e] Hstep; cbv beta iota; [|by intros tm [=]].
    apply at_ret. intros tm [= <-].
    destruct (Hstep tm3 eq_refl) as (page & -> & Hanswer).
    exists (evs1 ++ evs2), page. split.
    + by rewrite app_nil_r, app_assoc.
    + by rewrite app_assoc.
  - apply last_None in Hlast as ->. apply at_bind.
    destruct (last (List.filter is_computer_call_item outputs)) as [o|]
      eqn:Hcalls.
    + apply last_filter_split in Hcalls as (l1 & l2 & -> & Ho & Hl2).
      eapply at_mono; [by apply computer_calls_at|].
      intros evs1 [tm1|e] Hloop; cbv beta iota; [|by intros tm [=]].
      cbn [for_each]. apply at_ret. intros tm [= <-].
      rewrite app_nil_r. by apply Hloop.
    + apply last_None in Hcalls.
      eapply at_mono; [by apply at_wp, unknown_outputs_leave_message|].
      intros evs1 [tm1|e] [_ Hsame]; cbv beta iota; [|by intros tm [=]].
      cbn [for_each]. apply at_ret. intros tm [= <-]. by apply Hsame.
Qed.

Lemma last_action_result_later h evs1 evs2 outputs calls tm :
  last_action_result E (h ++ evs1) evs2 outputs calls tm →
  last_action_result E h (evs1 ++ evs2) outputs calls tm.
Proof.
  unfold last_action_result. destruct (last calls) as [c|].
  - intros (before & page & -> & Hanswer).
    exists (evs1 ++ before), page. split; [by rewrite app_assoc|].
    by rewrite app_assoc.
  - destruct (last (List.filter is_computer_call_item outputs)) as [o|];
      [|done].
    intros (before & page & page' & shot & after & -> & Hquiet & Hshot & ->).
    exists (evs1 ++ before), page, page', shot, after.
    split; [by rewrite <- !app_assoc|]. split; [done|]. split; [|done].
    by rewrite <- !app_assoc in *.
Qed.

Lemma bind_browser_runs state config :
  wp (bind_browser E state config) (λ _ _, True).
Proof. eapply wp_mono; [apply bind_browser_follows|]. done. Qed.

(** The whole action node from the history [h], once the head has
    accepted the message. *)
Lemma take_browser_action_at h state config tool_outputs calls :
  requested_actions state = Ok (tool_outputs, calls) →
  wp_at h (take_browser_action E state config)
    (λ evs r, ∀ u, r = Ok u →
       last_action_result E h evs (iterated tool_outputs) calls
         (u_messages u)).
Proof.
  intros Hreq. unfold take_browser_action. rewrite Hreq.
  apply at_bind, at_lift. cbv beta iota. apply at_bind.
  eapply at_mono; [apply at_wp, bind_browser_runs|].
  intros evs1 [[[pw br] url]|e] _; cbv beta iota; [|by intros u [=]].
  unfold iterated. destruct (iter tool_outputs) as [outputs|e];
    apply at_bind, at_lift; [|by intros u [=]].
  apply at_bind. eapply at_mono; [apply dispatch_at|].
  intros evs2 [tm|e] Htm; cbv beta iota; [|by intros u [=]].
  specialize (Htm tm eq_refl).
  repeat at_step; intros u [= <-]; cbn [u_messages].
  rewrite !app_nil_r in Htm. cbn [app]. rewrite !app_nil_r.
  by apply last_action_result_later.
Qed.

(** C4.  Once the node has accepted the last message, the update it
    returns holds at most one message, which the graph appends to the
    conversation, and that message is the result of the last action the
    run performed.  With a function call in the batch, the run ends with
    the last function call and its settle delay, and the message is what
    the handler answered to that very call.  With no function call, the
    run ends with the last computer call, its settle delay and its
    screenshot, and the message is built from what the driver answered to
    that very screenshot, under the [call_id] of that call.  Nothing of the
    earlier actions is in it. *)
Theorem batch_keeps_last_result (h : list Event) (state : CUAState)
    (config : RunnableConfig) (tool_outputs : pyval) (calls : list ToolCall) :
  requested_actions state = Ok (tool_outputs, calls) →
  wp_at h (take_browser_action E state config)
     (λ evs r, ∀ u, r = Ok u →
        last_action_result E h evs (iterated tool_outputs) calls
          (u_messages u) ∧
        messages (apply_update (messages state) u)
          = messages state ++ option_list (u_messages u) ∧
        (length (messages (apply_update (messages state) u))
           ≤ S (length (messages state)))%nat).
Proof.
  intros Hreq. eapply at_mono; [by apply take_browser_action_at|].
  intros evs r Hlast u Hu. split; [by apply Hlast|]. split; [done|].
  cbn [apply_update messages]. rewrite length_app.
  destruct (u_messages u); cbn; lia.
Qed.

End BatchResult.

Section BatchResultExamples.
Import Hyperbrowser.

Lemma batch_keeps_last_result_witness :
  ∃ u,
    (take_browser_action example_env
       (bound_state [HumanMessage []; two_clicks_reply]) example_config
       initial).1 = Ok u ∧
    u_messages u
      = Some (computer_call_output example_env "PNG" (computer_call "call_b")) ∧
    ∃ evs,
      trace (take_browser_action example_env
               (bound_state [HumanMessage []; two_clicks_reply]) example_config
               initial).2 = evs ∧
      last_action_result example_env [] evs
        [computer_call "call_a"; computer_call "call_b"] [] (u_messages u).
Proof.
  destruct (batch_keeps_last_result example_env []
              (bound_state [HumanMessage []; two_clicks_reply]) example_config
              (PList [computer_call "call_a"; computer_call "call_b"]) []
              eq_refl initial eq_refl) as (evs & Htrace & Hlast).
  eexists. split; [vm_compute; reflexivity|].
  split; [vm_compute; reflexivity|].
  exists evs. split; [exact Htrace|].
  refine (proj1 (Hlast _ _)). vm_compute. reflexivity.
Defined.

End BatchResultExamples.

(** ** Tool outputs of an unknown kind *)

Section UnknownOutput.
Import Hyperbrowser.
Context (E : Env).










End UnknownOutput.

Section UnknownOutputExamples.
Import Hyperbrowser.


End UnknownOutputExamples.

(** ** Session acquisition, request by request *)

Section Acquire.
Import Hyperbrowser.
Context (E : Env).

Ltac unfold_nodes :=
  unfold call_model, bind_browser, init_or_load_without_config, init_or_load,
    get_or_create, create_session, connect, page_set_viewport_size,
    page_screenshot, write_stream_url.

Lemma get_hyperbrowser_client_eq (api_key : option string) :
  get_hyperbrowser_client api_key
    = if opt_truthy api_key
      then match api_key with
           | Some key => Ok key
           | None => Raise missing_api_key
           end
      else Raise missing_api_key.
Proof. unfold get_hyperbrowser_client. by destruct api_key, (opt_truthy _). Qed.

Lemma get_or_create_known h key state sid :
  session_id state = Some sid → truthy (PStr sid) = true →
  wp_at h (get_or_create E key state)
    (λ evs r, evs = [EvSessionGet key sid] ∧ r = sessions_get E h key sid).
Proof.
  intros Hsid Htruthy. unfold get_or_create. rewrite Hsid, Htruthy.
  by apply at_await.
Qed.

Lemma get_or_create_fresh h key state :
  opt_truthy (session_id state) = false →
  wp_at h (get_or_create E key state)
    (λ evs r, evs = [EvSessionCreate key true 1024 800] ∧
              r = sessions_create E h key).
Proof.
  intros Hfresh. unfold get_or_create, create_session.
  destruct (session_id state) as [sid|]; cbn in Hfresh;
    [change (negb (String.eqb sid "")) with (truthy (PStr sid)) in Hfresh;
     rewrite Hfresh|];
    by apply at_await.
Qed.

Lemma init_or_load_without_config_resumes h state sid :
  session_id state = Some sid → truthy (PStr sid) = true →
  wp_at h (init_or_load_without_config E state)
    (resumes E h (getenv_HYPERBROWSER_API_KEY E) sid).
Proof.
  intros Hsid Htruthy. unfold init_or_load_without_config, resumes.
  rewrite get_hyperbrowser_client_eq.
  destruct (opt_truthy (getenv_HYPERBROWSER_API_KEY E)) eqn:Hkey;
    [|by apply at_bind, at_lift].
  destruct (getenv_HYPERBROWSER_API_KEY E) as [key|]; [|done].
  apply at_bind, at_lift. cbv beta iota. rewrite app_nil_r.
  eapply at_mono; [by apply get_or_create_known|].
  intros evs r [-> ->]. by exists key.
Qed.

Lemma init_or_load_resumes h state config sid :
  session_id state = Some sid → truthy (PStr sid) = true →
  wp_at h (init_or_load E state config)
    (resumes E h (hyperbrowser_api_key config) sid).
Proof.
  intros Hsid Htruthy. unfold init_or_load, resumes.
  rewrite get_hyperbrowser_client_eq.
  destruct (opt_truthy (hyperbrowser_api_key config)) eqn:Hkey; cbn [negb];
    [|by apply at_lift].
  destruct (hyperbrowser_api_key config) as [key|]; [|done].
  apply at_bind, at_lift. cbv beta iota. rewrite app_nil_r.
  eapply at_mono; [by apply get_or_create_known|].
  intros evs r [-> ->]. by exists key.
Qed.

Lemma init_or_load_without_config_creates h state :
  opt_truthy (session_id state) = false →
  wp_at h (init_or_load_without_config E state)
    (creates E h (getenv_HYPERBROWSER_API_KEY E)).
Proof.
  intros Hfresh. unfold init_or_load_without_config, creates.
  rewrite get_hyperbrowser_client_eq.
  destruct (opt_truthy (getenv_HYPERBROWSER_API_KEY E)) eqn:Hkey;
    [|by apply at_bind, at_lift].
  destruct (getenv_HYPERBROWSER_API_KEY E) as [key|]; [|done].
  apply at_bind, at_lift. cbv beta iota. rewrite app_nil_r.
  eapply at_mono; [by apply get_or_create_fresh|].
  intros evs r [-> ->]. by exists key.
Qed.

Lemma init_or_load_creates h state config :
  opt_truthy (session_id state) = false →
  wp_at h (init_or_load E state config)
    (creates E h (hyperbrowser_api_key config)).
Proof.
  intros Hfresh. unfold init_or_load, creates.
  rewrite get_hyperbrowser_client_eq.
  destruct (opt_truthy (hyperbrowser_api_key config)) eqn:Hkey; cbn [negb];
    [|by apply at_lift].
  destruct (hyperbrowser_api_key config) as [key|]; [|done].
  apply at_bind, at_lift. cbv beta iota. rewrite app_nil_r.
  eapply at_mono; [by apply get_or_create_fresh|].
  intros evs r [-> ->]. by exists key.
Qed.

(** A model step on a known session asks the provider for it, once. *)
Lemma call_model_resumes state sid :
  session_id state = Some sid → truthy (PStr sid) = true →
  wp (call_model E state)
     (λ evs r, ∀ conv u, r = Ok (conv, u) →
        ∃ key, omap resumption evs = [(key, sid)]).
Proof.
  intros Hsid Htruthy. unfold_nodes. rewrite Hsid, Htruthy.
  repeat wp_step; cbv beta; cbn; try (by intros conv u [=]);
    intros conv u _; by eexists.
Qed.

End Acquire.

(** C7, as amended.  With a session provider that resumes the session it
    is asked for and gives new sessions a non-empty id.  When the state
    holds a session id, each loader asks the provider exactly once, for
    exactly that session, returns what the provider answered, and so the
    identical session id (without an API key it fails before it contacts
    the provider); the model step asks for that session, creates none and
    returns the identical session id in its update, and so does the action
    step, which creates none either.  When the state holds no session id,
    each loader makes exactly one creation request, with captcha solving on
    and the display at 1024 by 800, and returns what the provider
    answered.  A run of the workflow creates at most one session, however
    many steps it takes. *)
Theorem session_acquired_once (E : Env) :
  faithful_ids E →
  (∀ h state config sid,
     session_id state = Some sid → truthy (PStr sid) = true →
     wp_at h (Hyperbrowser.init_or_load_without_config E state)
        (λ evs r, resumes E h (getenv_HYPERBROWSER_API_KEY E) sid evs r ∧
                  ∀ sess, r = Ok sess → id sess = sid) ∧
     wp_at h (Hyperbrowser.init_or_load E state config)
        (λ evs r, resumes E h (Hyperbrowser.hyperbrowser_api_key config)
                    sid evs r ∧
                  ∀ sess, r = Ok sess → id sess = sid) ∧
     wp (Hyperbrowser.call_model E state)
        (λ evs r, omap creation evs = [] ∧
                  ∀ conv u, r = Ok (conv, u) →
                    Hyperbrowser.u_session_id u = Some sid ∧
                    ∃ key, omap resumption evs = [(key, sid)]) ∧
     wp (Hyperbrowser.take_browser_action E state config)
        (λ evs r, omap creation evs = [] ∧
                  ∀ u, r = Ok u → Hyperbrowser.u_session_id u = Some sid)) ∧
  (∀ h state config,
     opt_truthy (session_id state) = false →
     wp_at h (Hyperbrowser.init_or_load_without_config E state)
        (creates E h (getenv_HYPERBROWSER_API_KEY E)) ∧
     wp_at h (Hyperbrowser.init_or_load E state config)
        (creates E h (Hyperbrowser.hyperbrowser_api_key config))) ∧
  (∀ steps config input,
     wp (Hyperbrowser.graph E steps config input)
        (λ evs _, (length (omap creation evs) ≤ 1)%nat)).
Proof.
  intros Hfaithful. split; [|split].
  - intros h state config sid Hsid Htruthy.
    assert (Hknown : opt_truthy (session_id state) = true)
      by (by rewrite Hsid).
    assert (Hsame : ∀ api_key evs r,
              resumes E h api_key sid evs r →
              ∀ sess, r = Ok sess → id sess = sid).
    { intros api_key evs r Hres sess ->. unfold resumes in Hres.
      destruct (opt_truthy api_key); [|by destruct Hres].
      destruct Hres as (key & _ & _ & Hget).
      symmetry in Hget. by apply Hfaithful in Hget. }
    split; [|split; [|split]].
    + eapply at_mono; [by apply init_or_load_without_config_resumes|].
      intros evs r Hres. split; [done|]. by eapply Hsame.
    + eapply at_mono; [by apply init_or_load_resumes|].
      intros evs r Hres. split; [done|]. by eapply Hsame.
    + eapply wp_mono;
        [apply wp_and;
           [by apply call_model_sessions
           | by apply (call_model_resumes E state sid)]|].
      intros evs r [(_ & Hnone & Hu) Hasked].
      split; [by apply Hnone|].
      intros conv u Hok. destruct (Hu conv u Hok) as [_ Hid].
      split; [by rewrite Hid, Hsid | by apply (Hasked conv u)].
    + eapply wp_mono; [by apply take_browser_action_sessions|].
      intros evs r [Hnone Hu]. split; [done|].
      intros u Hok. by rewrite (Hu u Hok).
  - intros h state config Hfresh. split.
    + by apply init_or_load_without_config_creates.
    + by apply init_or_load_creates.
  - intros steps config input. by apply graph_sessions.
Qed.

Section AcquireExamples.
Import Hyperbrowser.

Lemma session_acquired_once_witness :
  (∃ evs,
     trace (call_model acting_env
              (bound_state after_first_action) initial).2 = trace initial ++ evs ∧
     omap creation evs = [] ∧
     ∀ conv u,
       (call_model acting_env (bound_state after_first_action) initial).1
         = Ok (conv, u) →
       u_session_id u = Some "sess_1" ∧
       ∃ key, omap resumption evs = [(key, "sess_1")]) ∧
  (∃ evs,
     trace (init_or_load acting_env fresh_input example_config initial).2
       = evs ∧
     creates acting_env [] (Some "hb_key") evs
       (init_or_load acting_env fresh_input example_config initial).1) ∧
  (∃ evs,
     trace (graph acting_env 5 example_config fresh_input initial).2
       = trace initial ++ evs ∧
     (length (omap creation evs) ≤ 1)%nat).
Proof.
  destruct (session_acquired_once acting_env acting_env_faithful)
    as (Hknown & Hfresh & Hrun).
  split; [|split].
  - destruct (Hknown [] (bound_state after_first_action) example_config
                "sess_1" eq_refl eq_refl) as (_ & _ & Hmodel & _).
    exact (Hmodel initial).
  - destruct (Hfresh [] fresh_input example_config eq_refl) as [_ Hload].
    exact (Hload initial eq_refl).
  - exact (Hrun 5%nat example_config fresh_input initial).
Defined.

(** C7 as stated fails: it needs the provider's side of the contract.
    With a provider that gives its sessions an empty id, the second model
    step of a run finds no session id in the state and creates a second
    session. *)
Lemma nameless_provider_creates_twice :
  omap creation
    (trace (graph nameless_env 3 example_config fresh_input initial).2)
    = [(true, 1024, 800); (true, 1024, 800)].
Proof. vm_compute. reflexivity. Qed.

End AcquireExamples.

(** ** The first-turn screenshot, request by request *)

Section FirstTurnAt.
Import Hyperbrowser.
Context (E : Env).

Ltac unfold_nodes :=
  unfold call_model, bind_browser, init_or_load_without_config, init_or_load,
    get_or_create, create_session, connect, page_set_viewport_size,
    page_screenshot, write_stream_url.

Lemma tail_here {A} (t : list A) : t = [] ++ t.
Proof. reflexivity. Qed.

Lemma tail_later {A} (x : A) (l b t : list A) :
  l = b ++ t → x :: l = (x :: b) ++ t.
Proof. by intros ->. Qed.

Lemma call_model_first_turn_at h state :
  last_has_type (messages state) "tool" = false →
  last_ai_token (messages state) = Ok PNone →
  wp_at h (call_model E state)
    (λ evs r, ∀ conv u, r = Ok (conv, u) →
       ∃ before page br shot reply,
         evs = before ++ [EvScreenshot page;
                          EvInvoke (InMsg <$> conv) PNone (hb_tools E)] ∧
         omap sight before = [] ∧
         u_browser u = Some br ∧
         page_in_use state br page ∧
         u_current_page u = Some page ∧
         screenshot E (h ++ before) page = Ok shot ∧
         append_to_first_content (messages state) (first_turn_image E shot)
           = Ok conv ∧
         ainvoke E (h ++ before ++ [EvScreenshot page]) (InMsg <$> conv)
           PNone (hb_tools E) = Ok reply ∧
         u_messages u = Some reply).
Proof.
  intros Hfull Htoken. unfold_nodes. rewrite Hfull, Htoken.
  do 2 at_step. cbv beta iota. cbn [is_none].
  repeat at_step; try (by intros conv u [=]).
  all: intros conv u [= <- <-].
  all: rewrite <- ?app_assoc, ?app_nil_r in *; cbn [app] in *.
  all: eexists; eexists; eexists; eexists; eexists.
  all: split; [repeat first [apply tail_here | apply tail_later]|].
  all: split; [reflexivity|]. all: split; [reflexivity|].
  all: split;
    [unfold page_in_use; by destruct (current_page state)|].
  all: split; [reflexivity|]. all: split; [eassumption|].
  all: split; [eassumption|]. all: split; [cbn [app]; eassumption|].
  all: reflexivity.
Qed.

End FirstTurnAt.

(** C6.  In the hyperbrowser model node, when the latest message is no
    tool message and no continuation token is in sight, a successful step
    captured exactly one screenshot, of the current page: the page the
    state holds or, when it holds none, the first page of the browser the
    step returns, which is also the page the step returns as current.  It
    appended what the driver answered to that screenshot as an
    [input_image] block to the content of the first message, then sent the
    whole conversation so extended as its one request, and returns the
    model's answer to it; when that content is not a list the step fails
    and the model is not invoked.  On a tool turn, and on a full-history
    turn with a token, no screenshot is captured and the conversation is
    left as it was.  In a run of the workflow every invocation after the
    first is a tool turn, so no later invocation attaches a screenshot. *)
Theorem first_invocation_screenshot (E : Env) :
  (∀ h state,
     last_has_type (messages state) "tool" = false →
     last_ai_token (messages state) = Ok PNone →
     wp_at h (Hyperbrowser.call_model E state)
        (λ evs r,
           (first_content_is_list (messages state) = false →
            is_ok r = false ∧ invocations evs = []) ∧
           ∀ conv u, r = Ok (conv, u) →
             ∃ before page br shot reply,
               evs = before
                       ++ [EvScreenshot page;
                           EvInvoke (InMsg <$> conv) PNone (hb_tools E)] ∧
               omap sight before = [] ∧
               Hyperbrowser.u_browser u = Some br ∧
               page_in_use state br page ∧
               Hyperbrowser.u_current_page u = Some page ∧
               screenshot E (h ++ before) page = Ok shot ∧
               Hyperbrowser.append_to_first_content (messages state)
                 (first_turn_image E shot) = Ok conv ∧
               ainvoke E (h ++ before ++ [EvScreenshot page]) (InMsg <$> conv)
                 PNone (hb_tools E) = Ok reply ∧
               Hyperbrowser.u_messages u = Some reply)) ∧
  (∀ state,
     (last_has_type (messages state) "tool" = true ∨
      ∃ token, last_has_type (messages state) "tool" = false ∧
               last_ai_token (messages state) = Ok token ∧
               is_none token = false) →
     wp (Hyperbrowser.call_model E state)
        (λ evs r, omap captured evs = [] ∧
                  ∀ conv u, r = Ok (conv, u) → conv = messages state)) ∧
  (∀ steps config input,
     wp (Hyperbrowser.graph E steps config input)
        (λ evs _, ∃ first later,
                    invocations evs = first ++ later ∧
                    (length first ≤ 1)%nat ∧ Forall tool_only later)).
Proof.
  split; [|split].
  - intros h state Hfull Htoken.
    eapply at_mono;
      [apply at_and;
         [by apply call_model_first_turn_at
         | by apply call_model_first_turn]|].
    intros evs r [Hshot [Hshape _]]. by split.
  - intros state. apply call_model_later_turn.
  - intros steps config input. apply graph_requests.
Qed.

Section FirstTurnExamples.
Import Hyperbrowser.

Lemma first_invocation_screenshot_witness :
  ∃ conv u,
    (call_model acting_env second_tab_state initial).1 = Ok (conv, u) ∧
    (content <$> head conv)
      = Some (PList [PStr "go to example.com";
                     first_turn_image acting_env "PNG"]) ∧
    ∃ before,
      trace (call_model acting_env second_tab_state initial).2
        = before ++ [EvScreenshot 9%nat;
                     EvInvoke (InMsg <$> conv) PNone (hb_tools acting_env)] ∧
      omap sight before = [] ∧
      u_current_page u = Some 9%nat ∧
      screenshot acting_env before 9%nat = Ok "PNG".
Proof.
  destruct (first_invocation_screenshot acting_env) as (Hfirst & _ & _).
  destruct (Hfirst [] second_tab_state eq_refl eq_refl initial eq_refl)
    as (evs & Htrace & _ & Hok).
  destruct (call_model acting_env second_tab_state initial).1
    as [[conv u]|e] eqn:Hrun; [|by vm_compute in Hrun].
  exists conv, u. split; [done|].
  destruct (Hok conv u eq_refl)
    as (before & page & br & shot & reply & -> & Hquiet & _ & Hpage & Hu
        & Hshot & _).
  cbn in Hpage. subst page.
  split; [by vm_compute in Hrun; injection Hrun as <- _|].
  exists before. split; [exact Htrace|]. split; [exact Hquiet|].
  split; [exact Hu|]. reflexivity.
Defined.

End FirstTurnExamples.

(** * Further properties of the code *)

(** ** [is_computer_tool_call] *)

Section ComputerToolCall.
Import Hyperbrowser.

Lemma all_computer_call_true (l : list pyval) :
  all_computer_call l = Ok true ↔ forallb is_computer_call_item l = true.
Proof.
  induction l as [|o l IH]; [done|].
  cbn [all_computer_call forallb].
  destruct o as [| | | | |d]; cbn [dyn_get rbind is_computer_call_item]; try done.
  destruct (eq_str (get d "type") "computer_call"); [exact IH | done].
Qed.

(** [is_computer_tool_call] answers [True] exactly on a non-empty list all
    of whose items are dictionaries of type [computer_call]; on [None], on
    a value that is no list and on the empty list it answers [False]. *)
Theorem is_computer_tool_call_true (v : pyval) :
  (is_computer_tool_call v = Ok true ↔ only_computer_calls v = true) ∧
  (is_list v = false ∨ v = PList [] → is_computer_tool_call v = Ok false).
Proof.
  split.
  - destruct v as [| | | |l|]; try done.
    destruct l as [|o l]; [done|].
    unfold is_computer_tool_call, only_computer_calls. cbn [truthy].
    apply all_computer_call_true.
  - intros [Hnolist | ->]; [|done]. by destruct v.
Qed.

Lemma is_computer_tool_call_true_witness :
  is_computer_tool_call PNone = Ok false ∧
  is_computer_tool_call (PList []) = Ok false.
Proof.
  split.
  - apply (is_computer_tool_call_true PNone). by left.
  - apply (is_computer_tool_call_true (PList [])). by right.
Defined.

End ComputerToolCall.

(** ** The tool list of [nodes/call_model.py] *)

Section ToolList.
Import Nodes.

(** Whatever the provider, a tool list that is returned starts with the
    [computer_use_preview] tool; for Hyperbrowser its environment is
    ["browser"] and exactly two function tools follow; a provider that is
    no member of [Provider] is a [ValueError]. *)
Theorem tool_list_shape (c : Configuration) :
  (∀ tools, get_available_tools c = Ok tools →
     ∃ tool rest,
       tools = tool :: rest ∧
       dyn_get tool "type" = Ok (PStr "computer_use_preview") ∧
       (provider c = Some ProviderHyperbrowser →
        dyn_get tool "environment" = Ok (PStr "browser") ∧
        ((λ t, dyn_get t "type") <$> rest)
          = [Ok (PStr "function"); Ok (PStr "function")])) ∧
  (provider c = None →
   ∃ text, get_available_tools c = Raise (ValueError text)).
Proof.
  split; [|unfold get_available_tools; intros ->; by eexists].
  intros tools. unfold get_available_tools.
  destruct (provider c) as [[|]|]; [| |done].
  - destruct (get_openai_env_from_state_env (environment c)) as [env|];
      [|done].
    intros [= <-]. do 2 eexists. split; [reflexivity|]. split; [|done].
    vm_compute. reflexivity.
  - destruct (if truthy (session_params c) then _ else _) as [screen|]; [|done].
    cbn [rbind].
    destruct (dyn_get_or screen "width" _) as [w|]; [|done].
    destruct (dyn_get_or screen "height" _) as [h|]; [|done].
    intros [= <-]. do 2 eexists. split; [reflexivity|].
    split; [vm_compute; reflexivity|]. intros _.
    split; vm_compute; reflexivity.
Qed.

Lemma tool_list_shape_witness :
  ∃ tool rest,
    [computer_use_preview (PInt 1024) (PInt 768) (PStr "browser")]
      = tool :: rest ∧
    dyn_get tool "type" = Ok (PStr "computer_use_preview").
Proof.
  destruct (tool_list_shape continuity_on) as [Hshape _].
  destruct (Hshape _ eq_refl) as (tool & rest & Heq & Htype & _).
  by exists tool, rest.
Defined.

End ToolList.

(** ** Configuration errors *)

Section ConfigurationErrors.
Import Hyperbrowser.
Context (E : Env).

Lemma no_key_no_client (key : option string) :
  opt_truthy key = false → get_hyperbrowser_client key = Raise missing_api_key.
Proof. unfold get_hyperbrowser_client. destruct key; [by intros ->|done]. Qed.

(** Without an API key nothing is contacted: [init_or_load] (key from the
    configuration) and [init_or_load_without_config] (key from the
    environment) raise the missing-key [ValueError] with no effect, and the
    hyperbrowser model node ends in an error before its first event. *)
Theorem no_api_key_no_contact (state : CUAState) (config : RunnableConfig) :
  (opt_truthy (hyperbrowser_api_key config) = false →
   ∀ s, init_or_load E state config s = (Raise missing_api_key, s)) ∧
  (opt_truthy (getenv_HYPERBROWSER_API_KEY E) = false →
   (∀ s, init_or_load_without_config E state s = (Raise missing_api_key, s)) ∧
   wp (call_model E state) (λ evs r, evs = [] ∧ is_ok r = false)).
Proof.
  split.
  - intros Hkey s. unfold init_or_load. by rewrite Hkey.
  - intros Hkey%no_key_no_client. split.
    + intros s. unfold init_or_load_without_config. by rewrite Hkey.
    + unfold call_model, init_or_load_without_config. rewrite Hkey.
      repeat wp_step; done.
Qed.

(** With a provider that is no member of [Provider] the generic model node
    never reaches the model: it returns an error and has no effect. *)
Theorem unknown_provider_never_invokes (state : CUAState)
    (c : Nodes.Configuration) (s : St) :
  Nodes.provider c = None →
  ∃ e, Nodes.call_model E state c s = (Raise e, s).
Proof.
  intros Hprov. unfold Nodes.call_model, Nodes.get_available_tools.
  rewrite Hprov. rewrite bind_run. unfold lift at 1.
  match goal with
  | |- context [if ?b then previous_ai_token ?m else ?o] =>
      destruct (if b then previous_ai_token m else o)
  end; by eexists.
Qed.

(** On a tool turn, when the assistant message before the tool message has
    response metadata without an ["id"] entry, both model nodes stop with
    [KeyError] on that key, before any effect. *)
Theorem missing_response_id_is_key_error (state : CUAState)
    (last previous : Message) (metadata : dict) :
  last_message (messages state) = Some last →
  has_type last "tool" = true →
  second_to_last (messages state) = Some previous →
  has_type previous "ai" = true →
  response_metadata previous = Some metadata →
  metadata !! "id" = None →
  (∀ c s, is_false (Nodes.zdr_enabled c) = true →
          Nodes.call_model E state c s = (Raise (KeyError "id"), s)) ∧
  (∀ s, call_model E state s = (Raise (KeyError "id"), s)).
Proof.
  intros Hlast Htool Hprev Hai Hmeta Hid.
  assert (Htoken : previous_ai_token (messages state) = Raise (KeyError "id")).
  { unfold previous_ai_token, metadata_id. by rewrite Hprev, Hai, Hmeta, Hid. }
  split.
  - intros c s Hzdr. unfold Nodes.call_model.
    rewrite (last_has_type_eq _ last) by done.
    by rewrite Htool, Hzdr, Htoken.
  - intros s. unfold call_model.
    rewrite (last_has_type_eq _ last) by done.
    by rewrite Htool, Htoken.
Qed.

End ConfigurationErrors.

Section ConfigurationErrorExamples.
Import Hyperbrowser.

Lemma no_api_key_no_contact_witness :
  init_or_load example_env fresh_input {| hyperbrowser_api_key := Some "" |} initial
    = (Raise missing_api_key, initial).
Proof.
  destruct (no_api_key_no_contact example_env fresh_input
              {| hyperbrowser_api_key := Some "" |}) as [Hconfig _].
  exact (Hconfig eq_refl initial).
Defined.

Lemma unknown_provider_never_invokes_witness :
  ∃ e,
    Nodes.call_model example_env fresh_input
      {| Nodes.provider := None; Nodes.environment := PStr "web";
         Nodes.zdr_enabled := PBool false; Nodes.prompt := None;
         Nodes.session_params := PNone |} initial
    = (Raise e, initial).
Proof. by apply unknown_provider_never_invokes. Defined.

Lemma missing_response_id_is_key_error_witness :
  call_model example_env
    (state_of [HumanMessage []; AIMessage ∅ [] ∅; tool_result "call_1"]) initial
    = (Raise (KeyError "id"), initial).
Proof.
  destruct (missing_response_id_is_key_error example_env
              (state_of [HumanMessage []; AIMessage ∅ [] ∅; tool_result "call_1"])
              (tool_result "call_1") (AIMessage ∅ [] ∅) ∅
              eq_refl eq_refl eq_refl eq_refl eq_refl (lookup_empty _))
    as [_ Hhb].
  exact (Hhb initial).
Defined.

End ConfigurationErrorExamples.

(** ** What the action node refuses, and what the router sends it *)

Section ActionContract.
Import Hyperbrowser.
Context (E : Env).

(** The action node checks its contract before it touches anything: an
    empty conversation is an [IndexError], a last message of another type
    than ["ai"] an [AssertionError], an assistant message with neither a
    computer call nor a function call a [ValueError]; in each case the
    state of the world is left as it was. *)
Theorem action_node_contract (state : CUAState) (config : RunnableConfig) (s : St) :
  (messages state = [] →
   take_browser_action E state config s = (Raise IndexError, s)) ∧
  (∀ last t,
     last_message (messages state) = Some last →
     msg_type last = Some t → t ≠ "ai" →
     take_browser_action E state config s
       = (Raise (AssertionError "Last message must be an AI message"), s)) ∧
  (∀ last kwargs,
     last_message (messages state) = Some last →
     has_type last "ai" = true →
     additional_kwargs last = Some kwargs →
     is_computer_tool_call (get_or kwargs "tool_outputs" (PList [])) = Ok false →
     tool_calls last = [] →
     take_browser_action E state config s
       = (Raise (ValueError "Cannot take computer action without a computer call or function call in the last message."), s)).
Proof.
  split; [|split].
  - intros Hempty. apply take_browser_action_rejects.
    unfold requested_actions. by rewrite Hempty.
  - intros last t Hlast Htype Hne. apply take_browser_action_rejects.
    unfold requested_actions, has_type. rewrite Hlast. cbn [rbind].
    rewrite Htype. by apply String.eqb_neq in Hne as ->.
  - intros last kwargs Hlast Hai Hkw Hcomputer Hcalls.
    apply take_browser_action_rejects.
    unfold requested_actions. rewrite Hlast. cbn [rbind].
    unfold has_type in Hai |- *.
    destruct (msg_type last) as [t|]; [|done]. rewrite Hai. cbn [rbind].
    rewrite Hkw. cbn [rbind]. cbv beta iota zeta.
    rewrite Hcomputer. cbn [rbind]. by rewrite Hcalls.
Qed.

(** The router and the action node test the same thing: a state the router
    sends to the action node, whose last message is an assistant message,
    is never refused by the node's own check. *)
Theorem router_sends_only_accepted (state : CUAState) :
  take_action_or_end state = Ok take_browser_action_node →
  last_has_type (messages state) "ai" = true →
  ∃ tool_outputs calls, requested_actions state = Ok (tool_outputs, calls).
Proof.
  unfold take_action_or_end, requested_actions, last_has_type, has_type.
  destruct (last_message (messages state)) as [last|]; [|done].
  destruct (additional_kwargs last) as [kwargs|] eqn:Hkw; [|done].
  destruct (negb (truthy (PDict kwargs))); [done|].
  intros Hroute Hai. cbn [rbind].
  destruct (msg_type last) as [t|]; [|done]. rewrite Hai.
  cbn [rbind]. rewrite Hkw. cbn [rbind]. cbv beta iota zeta.
  assert (Hsame : is_computer_tool_call (get_or kwargs "tool_outputs" (PList []))
                  = is_computer_tool_call (get kwargs "tool_outputs")).
  { unfold get, get_or. by destruct (kwargs !! "tool_outputs"). }
  rewrite Hsame.
  destruct (is_computer_tool_call (get kwargs "tool_outputs")) as [computer|];
    [|done].
  cbn [rbind] in *. destruct (negb computer && _); [done|]. by eexists _, _.
Qed.

End ActionContract.

Section ActionContractExamples.
Import Hyperbrowser.

Lemma action_node_contract_witness :
  take_browser_action example_env (state_of []) example_config initial
    = (Raise IndexError, initial) ∧
  take_browser_action example_env (state_of [HumanMessage []]) example_config initial
    = (Raise (AssertionError "Last message must be an AI message"), initial) ∧
  take_browser_action example_env (state_of [final_reply]) example_config initial
    = (Raise (ValueError "Cannot take computer action without a computer call or function call in the last message."), initial).
Proof.
  split; [|split].
  - by apply (action_node_contract example_env (state_of [])).
  - destruct (action_node_contract example_env (state_of [HumanMessage []])
                example_config initial) as (_ & Htype & _).
    by apply (Htype (HumanMessage []) "human").
  - destruct (action_node_contract example_env (state_of [final_reply])
                example_config initial) as (_ & _ & Hnone).
    by apply (Hnone final_reply {[ "reasoning" := PStr "done" ]}).
Defined.

Lemma router_sends_only_accepted_witness :
  ∃ tool_outputs calls,
    requested_actions (state_of [HumanMessage []; first_reply])
      = Ok (tool_outputs, calls).
Proof.
  apply router_sends_only_accepted; vm_compute; reflexivity.
Defined.

End ActionContractExamples.

(** ** What a step returns *)

Section StepResults.
Import Hyperbrowser.
Context (E : Env).

Ltac unfold_nodes :=
  unfold call_model, bind_browser, init_or_load_without_config, init_or_load,
    get_or_create, create_session, connect, page_set_viewport_size,
    page_screenshot, write_stream_url.

Lemma append_keeps_rest msgs item conv :
  append_to_first_content msgs item = Ok conv →
  length conv = length msgs ∧ tail conv = tail msgs.
Proof.
  unfold append_to_first_content.
  destruct msgs as [|m0 rest]; [done|].
  destruct (content m0); try done. by intros [= <-].
Qed.

(** A successful model step returns exactly one message, the answer of the
    model to the request it made, and leaves the conversation as long as it
    was, with every message after the first untouched. *)
Theorem model_step_returns_reply (state : CUAState) :
  wp (call_model E state)
     (λ evs r, ∀ conv u, r = Ok (conv, u) →
        (∃ reply h input token,
           ainvoke E h input token (hb_tools E) = Ok reply ∧
           invocations evs = [(input, token, hb_tools E)] ∧
           u_messages u = Some reply) ∧
        length conv = length (messages state) ∧
        tail conv = tail (messages state)).
Proof.
  unfold_nodes.
  repeat wp_step; cbv beta; try (by intros conv u [=]);
    intros conv u [= <- <-]; cbn; (split; [by eauto 10|]);
    first [ done
          | match goal with
            | H : append_to_first_content _ _ = Ok _ |- _ =>
                by apply append_keeps_rest in H
            end ].
Qed.

(** The whole action node, once the head has accepted the message: what
    holds of the tool message the loops end with holds of the message in
    the update. *)
Lemma take_browser_action_message state config tool_outputs calls
    (Φ : option Message → Prop) :
  requested_actions state = Ok (tool_outputs, calls) →
  (∀ tm, result_of_last_action E (iterated tool_outputs) calls tm → Φ tm) →
  wp (take_browser_action E state config)
     (λ _ r, ∀ u, r = Ok u → Φ (u_messages u)).
Proof.
  intros Hreq HΦ. unfold take_browser_action. rewrite Hreq.
  apply wp_lift_ok. cbv beta iota. apply wp_bind.
  eapply wp_mono; [apply bind_browser_follows|].
  intros evs1 [[[pw br] url]|e] _; cbv beta iota; [|by intros u [=]].
  unfold iterated in HΦ. destruct (iter tool_outputs) as [outputs|e];
    [apply wp_lift_ok | by apply wp_lift_raise; intros u [=]].
  apply wp_bind. eapply wp_mono; [apply dispatch_result|].
  intros evs2 [tm|e] Htm; cbv beta iota; [|by intros u [=]].
  specialize (Htm tm eq_refl).
  repeat wp_step; intros u [= <-]; by apply HΦ.
Qed.

Lemma requested_actions_ai state tool_outputs calls :
  requested_actions state = Ok (tool_outputs, calls) →
  ∃ last kwargs,
    last_message (messages state) = Some last ∧
    has_type last "ai" = true ∧
    additional_kwargs last = Some kwargs ∧
    tool_outputs = get_or kwargs "tool_outputs" (PList []) ∧
    calls = tool_calls last ∧
    (is_computer_tool_call tool_outputs = Ok true ∨ calls ≠ []).
Proof.
  unfold requested_actions.
  destruct (last_message (messages state)) as [last|]; [|done]. cbn [rbind].
  destruct (msg_type last) as [t|] eqn:Htype; [|done].
  destruct (has_type last "ai") eqn:Hai; [|done]. cbn [rbind].
  destruct (additional_kwargs last) as [kwargs|] eqn:Hkwargs; [|done].
  cbn [rbind]. cbv beta iota zeta.
  destruct (is_computer_tool_call _) as [computer|] eqn:Hcomputer; [|done].
  cbn [rbind].
  destruct (negb computer && (length (tool_calls last) =? 0)%nat) eqn:Hguard;
    [done|].
  intros [= <- <-]. exists last, kwargs. split_and!; try done.
  destruct computer; [by left|right].
  by destruct (tool_calls last).
Qed.

Lemma ai_is_not_tool (m : Message) :
  has_type m "ai" = true → has_type m "tool" = false.
Proof.
  unfold has_type. destruct (msg_type m) as [t|]; [|done].
  by intros ->%String.eqb_eq.
Qed.

(** After the action node the router looks at what the node returned: with
    a message of type ["tool"] it goes back to the model, and with no
    message, or a message of another type, the run ends. *)
Theorem router_after_action (state : CUAState) (config : RunnableConfig)
    (s : St) (u : Update) :
  (take_browser_action E state config s).1 = Ok u →
  reinvoke_model_or_end (apply_update (messages state) u)
    = match u_messages u with
      | Some m => if has_type m "tool" then call_model_node else END
      | None => END
      end.
Proof.
  intros Hok.
  destruct (requested_actions state) as [[tool_outputs calls]|e] eqn:Hreq.
  2: { by rewrite (take_browser_action_rejects E state config e s) in Hok. }
  apply requested_actions_ai in Hreq
    as (last & kwargs & Hlast & Hai & _).
  unfold reinvoke_model_or_end, last_has_type, last_message, apply_update.
  cbn [messages]. destruct (u_messages u) as [m|]; cbn [option_list option_rect].
  - by rewrite last_snoc.
  - rewrite app_nil_r. unfold last_message in Hlast. rewrite Hlast.
    by rewrite ai_is_not_tool.
Qed.

Lemma only_computer_calls_list v :
  is_computer_tool_call v = Ok true →
  ∃ o l, v = PList (o :: l) ∧ forallb is_computer_call_item (o :: l) = true.
Proof.
  intros H. destruct v as [| | | |l|]; try done.
  destruct l as [|o l]; [done|]. exists o, l. split; [done|].
  apply all_computer_call_true. exact H.
Qed.

Lemma filter_forallb {A} (f : A → bool) (l : list A) :
  forallb f l = true → List.filter f l = l.
Proof.
  induction l as [|x l IH]; [done|]. cbn.
  intros [-> Hl]%andb_prop. by rewrite IH.
Qed.

(** A batch of pointer actions only always answers, and answers the last
    of them: when the node succeeds, its message is a tool message of kind
    [computer_call_output] built from a screenshot the driver returned,
    and its [tool_call_id] is the [call_id] of the last computer call. *)
Theorem pointer_batch_answers_last_call (state : CUAState)
    (config : RunnableConfig) (tool_outputs : pyval) :
  requested_actions state = Ok (tool_outputs, []) →
  wp (take_browser_action E state config)
     (λ _ r, ∀ u, r = Ok u →
        ∃ m o h page shot,
          u_messages u = Some m ∧
          last (iterated tool_outputs) = Some o ∧
          screenshot E h page = Ok shot ∧
          m = computer_call_output E shot o ∧
          has_type m "tool" = true ∧
          tool_call_id m = call_id_of o).
Proof.
  intros Hreq.
  apply (take_browser_action_message state config tool_outputs []
           (λ tm, ∃ m o h page shot,
                    tm = Some m ∧
                    last (iterated tool_outputs) = Some o ∧
                    screenshot E h page = Ok shot ∧
                    m = computer_call_output E shot o ∧
                    has_type m "tool" = true ∧
                    tool_call_id m = call_id_of o)); [done|].
  intros tm Hlast.
  apply requested_actions_ai in Hreq
    as (message & kwargs & _ & _ & _ & _ & _ & [Hcomputer | Hcalls]); [|done].
  apply only_computer_calls_list in Hcomputer as (o0 & l & -> & Hall).
  unfold result_of_last_action, iterated in *. cbn [iter] in Hlast |- *.
  change (last (@nil ToolCall)) with (@None ToolCall) in Hlast.
  cbv beta iota in Hlast.
  rewrite filter_forallb in Hlast by done.
  destruct (last (o0 :: l)) as [o|] eqn:Ho.
  - destruct Hlast as (h & page & shot & Hshot & ->).
    by exists (computer_call_output E shot o), o, h, page, shot.
  - by apply last_None in Ho.
Qed.

(** On an empty conversation the generic node sends the model the system
    prompt alone (nothing at all when none is configured), and the
    hyperbrowser node, which has no first message to attach its screenshot
    to, fails without invoking the model. *)
Theorem empty_conversation (state : CUAState) :
  messages state = [] →
  (∀ c tools s,
     Nodes.get_available_tools c = Ok tools →
     trace (Nodes.call_model E state c s).2
       = trace s ++ [EvInvoke (option_list (Nodes._prompt_to_sys_message
                                              (Nodes.prompt c))) PNone tools]) ∧
  wp (call_model E state) (λ evs r, is_ok r = false ∧ invocations evs = []).
Proof.
  intros Hempty. split.
  - intros c tools s Htools.
    rewrite (generic_full_turn E state c tools) by (by rewrite ?Hempty).
    unfold full_history. rewrite Hempty, app_nil_r. apply await_run.
  - eapply wp_mono.
    + apply call_model_first_turn; by rewrite Hempty.
    + intros evs r [Hshape _]. apply Hshape. by rewrite Hempty.
Qed.

End StepResults.

Section StepResultExamples.
Import Hyperbrowser.

Lemma model_step_returns_reply_witness :
  ∃ conv u,
    (call_model example_env fresh_input initial).1 = Ok (conv, u) ∧
    u_messages u = Some final_reply ∧
    length conv = 1%nat.
Proof.
  destruct (model_step_returns_reply example_env fresh_input initial)
    as (evs & _ & Hreturn).
  destruct (call_model example_env fresh_input initial).1
    as [[conv u]|e] eqn:Hrun; [|by vm_compute in Hrun].
  destruct (Hreturn conv u eq_refl)
    as ((reply & h & input & token & Hreply & _ & Hu) & Hlength & _).
  exists conv, u. split; [done|]. split; [|done].
  rewrite Hu. cbn in Hreply. by injection Hreply as <-.
Defined.

Lemma router_after_action_witness :
  reinvoke_model_or_end
    (apply_update (messages (bound_state [HumanMessage []; two_clicks_reply]))
       {| u_messages := Some (computer_call_output example_env "PNG"
                                (computer_call "call_b"));
          u_playwright := Some 1%nat;
          u_browser := Some {| contexts := [[7%nat]] |};
          u_session_id := Some "sess_1";
          u_current_page := Some 7%nat;
          u_stream_url := Some "https://live.example/sess_1" |})
    = call_model_node.
Proof.
  rewrite (router_after_action example_env
             (bound_state [HumanMessage []; two_clicks_reply]) example_config
             initial); [reflexivity|].
  vm_compute. reflexivity.
Defined.

Lemma pointer_batch_answers_last_call_witness :
  ∃ evs,
    trace (take_browser_action example_env
             (bound_state [HumanMessage []; two_clicks_reply]) example_config
             initial).2 = trace initial ++ evs ∧
    ∀ u,
      (take_browser_action example_env
         (bound_state [HumanMessage []; two_clicks_reply]) example_config
         initial).1 = Ok u →
      ∃ m o h page shot,
        u_messages u = Some m ∧
        last [computer_call "call_a"; computer_call "call_b"] = Some o ∧
        screenshot example_env h page = Ok shot ∧
        m = computer_call_output example_env shot o ∧
        has_type m "tool" = true ∧
        tool_call_id m = call_id_of o.
Proof.
  exact (pointer_batch_answers_last_call example_env
           (bound_state [HumanMessage []; two_clicks_reply]) example_config
           (PList [computer_call "call_a"; computer_call "call_b"])
           eq_refl initial).
Defined.

Lemma empty_conversation_witness :
  trace (Nodes.call_model example_env (state_of []) continuity_on initial).2
    = [EvInvoke [] PNone
         [Nodes.computer_use_preview (PInt 1024) (PInt 768) (PStr "browser")]].
Proof.
  destruct (empty_conversation example_env (state_of []) eq_refl) as [Hgeneric _].
  exact (Hgeneric continuity_on _ initial eq_refl).
Defined.

End StepResultExamples.

(** ** Invariants of a run *)

Section RunInvariant.
Import Hyperbrowser.
Context (E : Env) {L : Type} (π : Event → option L).
Context (Inv : CUAState → Prop) (config : RunnableConfig).

Hypothesis model_keeps : ∀ state,
  Inv state →
  wp (call_model E state)
     (λ evs r, omap π evs = [] ∧
               ∀ conv u, r = Ok (conv, u) → Inv (apply_update conv u)).

Hypothesis action_keeps : ∀ state,
  Inv state →
  wp (take_browser_action E state config)
     (λ evs r, omap π evs = [] ∧
               ∀ u, r = Ok u → Inv (apply_update (messages state) u)).

(** When both nodes are silent for [π] on states that satisfy [Inv], and
    keep [Inv], the workflow is silent for [π] from any such state. *)
Lemma run_from_silent steps :
  ∀ node state,
    Inv state →
    wp (run_from E steps config node state) (λ evs _, omap π evs = []).
Proof.
  induction steps as [|steps IH]; intros node state Hinv.
  - destruct node; by apply wp_ret.
  - destruct node; cbn [run_from]; [| |by apply wp_ret].
    + apply wp_bind. eapply wp_mono; [by apply model_keeps|].
      intros evs1 [[conv u]|e] [Hnone Hu]; cbv beta iota; [|done].
      apply wp_bind, wp_lift.
      destruct (take_action_or_end (apply_update conv u)) as [next|e];
        [|by rewrite app_nil_r].
      eapply wp_mono; [by apply IH, Hu|].
      intros evs2 r2 Hrest. cbn. by rewrite omap_app, Hnone, Hrest.
    + apply wp_bind. eapply wp_mono; [by apply action_keeps|].
      intros evs1 [u|e] [Hnone Hu]; cbv beta iota; [|done].
      eapply wp_mono; [by apply IH, Hu|].
      intros evs2 r2 Hrest. by rewrite omap_app, Hnone, Hrest.
Qed.

End RunInvariant.

Section Connection.
Import Hyperbrowser.
Context (E : Env).

Ltac unfold_nodes :=
  unfold call_model, bind_browser, init_or_load_without_config, init_or_load,
    get_or_create, create_session, connect, page_set_viewport_size,
    page_screenshot, write_stream_url.

(** The whole action node from what its connection block establishes. *)
Lemma take_browser_action_update {L} (π : Event → option L) state config
    (Q : Playwright * Browser * option string → Prop) :
  (∀ ev, is_dispatch_event ev = true → π ev = None) →
  wp (bind_browser E state config)
     (λ evs r, omap π evs = [] ∧ ∀ x, r = Ok x → Q x) →
  wp (take_browser_action E state config)
     (λ evs r, omap π evs = [] ∧
               ∀ u, r = Ok u →
                 u_session_id u = session_id state ∧
                 ∃ pw br, u_playwright u = Some pw ∧ u_browser u = Some br ∧
                          Q (pw, br, u_stream_url u)).
Proof.
  intros Hπ Hbind. unfold take_browser_action.
  destruct (requested_actions state) as [[tool_outputs calls]|e].
  2: { apply wp_lift_raise. by split. }
  apply wp_lift_ok. cbv beta iota. apply wp_bind.
  eapply wp_mono; [exact Hbind|].
  intros evs1 [[[pw br] url]|e] [Hsilent HQ]; cbv beta iota; [|by split].
  specialize (HQ _ eq_refl).
  destruct (iter tool_outputs) as [outputs|e].
  2: { apply wp_lift_raise. rewrite app_nil_r. by split. }
  apply wp_lift_ok. apply wp_bind.
  eapply wp_mono; [by apply (dispatch_silent E π)|].
  intros evs2 [tm|e] Hd%follows_nothing; cbv beta iota.
  - repeat wp_step; rewrite !omap_app, Hsilent, Hd;
      (split; [done|]); intros u [= <-]; (split; [done|]); by exists pw, br.
  - rewrite omap_app, Hsilent, Hd. by split.
Qed.

Lemma connection_unobserved ev :
  is_dispatch_event ev = true → connection ev = None.
Proof. by destruct ev. Qed.

Lemma call_model_connected state :
  connected state = true →
  wp (call_model E state)
     (λ evs r, omap connection evs = [] ∧
               ∀ conv u, r = Ok (conv, u) →
                 u_playwright u = playwright state ∧
                 u_browser u = browser state).
Proof.
  unfold connected. intros Hconn. unfold_nodes.
  destruct (playwright state) as [pw|], (browser state) as [br|]; try done.
  repeat wp_step; cbv beta; cbn;
    (split; [done | first [by intros conv u [=] | by intros conv u [= <- <-]]]).
Qed.

Lemma take_browser_action_connected state config :
  connected state = true →
  wp (take_browser_action E state config)
     (λ evs r, omap connection evs = [] ∧
               ∀ u, r = Ok u →
                 u_playwright u = playwright state ∧
                 u_browser u = browser state ∧
                 u_session_id u = session_id state).
Proof.
  unfold connected. intros Hconn.
  eapply wp_mono.
  - apply (take_browser_action_update connection state config
             (λ x, Some x.1.1 = playwright state ∧ Some x.1.2 = browser state)
             connection_unobserved).
    unfold_nodes.
    destruct (playwright state) as [pw|], (browser state) as [br|]; try done.
    repeat wp_step; cbv beta; cbn;
      (split; [done | first [by intros x [=] | by intros x [= <-]]]).
  - intros evs r [Hnone Hu]. split; [done|].
    intros u Hok. destruct (Hu u Hok) as (Hsid & pw & br & Hpw & Hbr & Hp & Hb).
    cbn in Hp, Hb. by rewrite Hpw, Hbr.
Qed.

(** A state with both connection handles is never reconnected: neither
    node starts Playwright or connects over CDP, both return the handles
    they were given, and the action node also returns the session id it
    was given. *)
Theorem connection_is_reused (state : CUAState) (config : RunnableConfig) :
  connected state = true →
  wp (call_model E state)
     (λ evs r, omap connection evs = [] ∧
               ∀ conv u, r = Ok (conv, u) →
                 u_playwright u = playwright state ∧
                 u_browser u = browser state) ∧
  wp (take_browser_action E state config)
     (λ evs r, omap connection evs = [] ∧
               ∀ u, r = Ok u →
                 u_playwright u = playwright state ∧
                 u_browser u = browser state ∧
                 u_session_id u = session_id state).
Proof.
  intros Hconn. split.
  - by apply call_model_connected.
  - by apply take_browser_action_connected.
Qed.

Lemma call_model_connects state :
  wp (call_model E state)
     (λ evs r,
        (∃ endpoint,
           omap connection evs `prefix_of` [EvPlaywrightStart; EvConnect endpoint]) ∧
        ∀ conv u, r = Ok (conv, u) → connected (apply_update conv u) = true).
Proof.
  unfold_nodes.
  repeat wp_step; cbv beta; cbn;
    (split;
     [ first [ by exists ""; apply prefix_nil
             | exists ""; eexists; reflexivity
             | eexists; eexists; reflexivity ]
     | first [by intros conv u [=] | by intros conv u [= <- <-]] ]).
Qed.

(** A run opens the driver connection at most once: its connection events
    are a prefix of one Playwright start followed by one CDP connect. *)
Theorem run_connects_once (steps : nat) (config : RunnableConfig)
    (input : CUAState) :
  wp (graph E steps config input)
     (λ evs _, ∃ endpoint,
        omap connection evs `prefix_of` [EvPlaywrightStart; EvConnect endpoint]).
Proof.
  unfold graph. destruct steps as [|steps].
  { apply wp_ret. exists "". apply prefix_nil. }
  cbn [run_from]. apply wp_bind.
  eapply wp_mono; [apply call_model_connects|].
  intros evs1 [[conv u]|e] [Hfirst Hu]; cbv beta iota; [|done].
  apply wp_bind, wp_lift.
  destruct (take_action_or_end (apply_update conv u)) as [next|e];
    [|by rewrite app_nil_r].
  eapply wp_mono.
  - apply (run_from_silent E connection (λ st, connected st = true) config);
      [| |by apply Hu].
    + intros state Hconn. eapply wp_mono; [by apply call_model_connected|].
      intros evs r [Hnone Hsame]. split; [done|].
      intros conv' u' Hok. destruct (Hsame conv' u' Hok) as [Hpw Hbr].
      unfold connected, apply_update. cbn. by rewrite Hpw, Hbr.
    + intros state Hconn.
      eapply wp_mono; [by apply take_browser_action_connected|].
      intros evs r [Hnone Hsame]. split; [done|].
      intros u' Hok. destruct (Hsame u' Hok) as (Hpw & Hbr & _).
      unfold connected, apply_update. cbn. by rewrite Hpw, Hbr.
  - intros evs2 r2 Hrest. cbn [app].
    by rewrite omap_app, Hrest, app_nil_r.
Qed.

Lemma off_resolution_unobserved ev :
  is_dispatch_event ev = true → off_resolution ev = None.
Proof. by destruct ev. Qed.

(** The browser is always driven at the size the session is requested
    with: in a run, every session creation asks for captcha solving and
    1024 by 800, and every viewport command sets 1024 by 800. *)
Theorem fixed_display_size (steps : nat) (config : RunnableConfig)
    (input : CUAState) :
  wp (graph E steps config input) (λ evs _, omap off_resolution evs = []).
Proof.
  apply (run_from_silent E off_resolution (λ _, True) config); [| |done].
  - intros state _. unfold_nodes. repeat wp_step; by cbn.
  - intros state _. eapply wp_mono.
    + apply (take_browser_action_update off_resolution state config (λ _, True)
               off_resolution_unobserved).
      unfold_nodes. repeat wp_step; by cbn.
    + by intros evs r [Hnone _].
Qed.

End Connection.

Section ConnectionExamples.
Import Hyperbrowser.

Lemma connection_is_reused_witness :
  ∃ evs,
    trace (take_browser_action acting_env
             (bound_state [HumanMessage []; first_reply]) example_config
             initial).2 = trace initial ++ evs ∧
    omap connection evs = [].
Proof.
  destruct (connection_is_reused acting_env
              (bound_state [HumanMessage []; first_reply]) example_config
              eq_refl) as [_ Haction].
  destruct (Haction initial) as (evs & Htrace & Hnone & _).
  by exists evs.
Defined.

End ConnectionExamples.

(** ** The model and the browser take turns *)

Section Turns.
Import Hyperbrowser.
Context (E : Env).

Ltac unfold_nodes :=
  unfold call_model, bind_browser, init_or_load_without_config, init_or_load,
    get_or_create, create_session, connect, page_set_viewport_size,
    page_screenshot, write_stream_url.

Lemma acted_between_false turns :
  acted_between (false :: turns) = acted_between turns.
Proof. by destruct turns. Qed.

Lemma acted_between_actions (actions rest : list bool) :
  Forall (λ b, b = false) actions →
  acted_between (actions ++ rest) = acted_between rest.
Proof.
  induction 1 as [|b actions -> _ IH]; [done|].
  cbn [app]. by rewrite acted_between_false.
Qed.

Lemma acted_between_invoke (rest : list bool) :
  head rest ≠ Some true → acted_between rest = true →
  acted_between (true :: rest) = true.
Proof. destruct rest as [|[] rest]; cbn; try done. Qed.

Lemma turn_without_invocation evs :
  invocations evs = [] → Forall (λ b, b = false) (omap turn evs).
Proof.
  unfold invocations. induction evs as [|ev evs IH]; [constructor|].
  destruct ev; cbn; try done; intros H; try (constructor; [done|]); by apply IH.
Qed.

Lemma turn_of_call_step evs :
  existsb is_call_step (omap step_of evs) = true → omap turn evs ≠ [].
Proof.
  induction evs as [|ev evs IH]; [done|].
  destruct ev; cbn; try done; exact IH.
Qed.

Lemma schedule_has_call state tool_outputs calls :
  requested_actions state = Ok (tool_outputs, calls) →
  existsb is_call_step (schedule (iterated tool_outputs) calls) = true.
Proof.
  intros (message & kwargs & _ & _ & _ & _ & _ & [Hcomputer | Hcalls])
    %requested_actions_ai; unfold schedule; rewrite existsb_app.
  - apply only_computer_calls_list in Hcomputer as (o & l & -> & Hall).
    cbn in Hall. apply andb_prop in Hall as [Ho _].
    unfold iterated. cbn [iter]. rewrite bind_cons.
    unfold computer_call_steps at 1. rewrite Ho. done.
  - destruct calls as [|c calls]; [done|].
    rewrite bind_cons. cbn. by rewrite orb_true_r.
Qed.

Lemma call_model_turns state :
  wp (call_model E state)
     (λ evs _, omap turn evs = [] ∨ omap turn evs = [true]).
Proof. unfold_nodes. repeat wp_step; cbv beta; cbn; auto. Qed.

Lemma take_browser_action_turns state config :
  wp (take_browser_action E state config)
     (λ evs r, Forall (λ b, b = false) (omap turn evs) ∧
               (is_ok r = true → omap turn evs ≠ [])).
Proof.
  destruct (requested_actions state) as [[tool_outputs calls]|e] eqn:Hreq.
  - eapply wp_mono.
    + apply wp_and;
        [by apply (take_browser_action_follows E state config tool_outputs calls)
        |apply take_browser_action_requests].
    + intros evs r [[_ Hall] Hnone]. split.
      * by apply turn_without_invocation.
      * intros Hok. apply turn_of_call_step. rewrite Hall by done.
        by apply (schedule_has_call state).
  - intros s. exists [].
    rewrite (take_browser_action_rejects E state config e s) by done.
    rewrite app_nil_r. split; [done|]. by split; [constructor|].
Qed.

Lemma run_from_turns config steps :
  ∀ node state,
    wp (run_from E steps config node state)
       (λ evs _, acted_between (omap turn evs) = true ∧
                 (node ≠ call_model_node → head (omap turn evs) ≠ Some true)).
Proof.
  induction steps as [|steps IH]; intros node state.
  - destruct node; by apply wp_ret.
  - destruct node; cbn [run_from]; [| |by apply wp_ret].
    + apply wp_bind. eapply wp_mono; [apply call_model_turns|].
      intros evs1 [[conv u]|e] Hfirst; cbv beta iota.
      2: { split; [by destruct Hfirst as [-> | ->]|done]. }
      apply wp_bind, wp_lift.
      destruct (take_action_or_end (apply_update conv u)) as [next|e] eqn:Hnext.
      2: { rewrite app_nil_r. split; [by destruct Hfirst as [-> | ->]|done]. }
      eapply wp_mono; [apply IH|].
      intros evs2 r2 [Hrest Hhead]. cbn [app]. rewrite omap_app.
      split; [|done].
      apply take_action_or_end_next in Hnext.
      destruct Hfirst as [-> | ->]; [done|].
      apply acted_between_invoke; [by apply Hhead | done].
    + apply wp_bind. eapply wp_mono; [apply take_browser_action_turns|].
      intros evs1 [u|e] [Hactions Hsome]; cbv beta iota.
      * eapply wp_mono; [apply IH|].
        intros evs2 r2 [Hrest _]. rewrite omap_app.
        split; [by rewrite acted_between_actions|].
        intros _. specialize (Hsome eq_refl).
        destruct Hactions as [|b actions -> _]; [done|]. done.
      * split.
        -- rewrite <- (app_nil_r (omap turn evs1)).
           by rewrite acted_between_actions.
        -- intros _. by destruct Hactions as [|b actions -> _].
Qed.

(** The model and the browser take turns: in a run, no model invocation
    follows another without a browser action between them. *)
Theorem no_invocation_without_action (steps : nat) (config : RunnableConfig)
    (input : CUAState) :
  wp (graph E steps config input)
     (λ evs _, acted_between (omap turn evs) = true).
Proof.
  eapply wp_mono; [apply run_from_turns|]. by intros evs r [Hturns _].
Qed.

End Turns.

(** ** The current page *)

Section CurrentPage.
Import Hyperbrowser.
Context (E : Env).

Ltac unfold_nodes :=
  unfold call_model, bind_browser, init_or_load_without_config, init_or_load,
    get_or_create, create_session, connect, page_set_viewport_size,
    page_screenshot, write_stream_url.

(** [state.get("current_page", browser.contexts[0].pages[0])] evaluates its
    default before it looks at the state: with a connected browser that has
    no context, or no page in its first context, both nodes fail, send no
    command to any page and invoke no model, even when the state knows its
    current page. *)
Theorem pageless_browser_stops_both_nodes (state : CUAState)
    (config : RunnableConfig) (pw : Playwright) (br : Browser) :
  playwright state = Some pw →
  browser state = Some br →
  is_ok (first_page br) = false →
  wp (call_model E state)
     (λ evs r, is_ok r = false ∧ omap page_of evs = [] ∧ invocations evs = []) ∧
  wp (take_browser_action E state config)
     (λ evs r, is_ok r = false ∧ evs = []).
Proof.
  intros Hpw Hbr Hpage. split.
  - unfold_nodes. rewrite Hpw, Hbr.
    destruct (first_page br) as [p|e] eqn:Hnone; [done|].
    repeat wp_step; first [congruence | by cbn].
  - unfold take_browser_action. unfold_nodes. rewrite Hpw, Hbr.
    destruct (first_page br) as [p|e] eqn:Hnone; [done|].
    repeat wp_step; first [congruence | by cbn].
Qed.

(** The model node has no page listener: it sends its viewport command and
    its screenshot to the current page of the state, and returns that page,
    whatever pages the driver reports meanwhile. *)
Theorem model_node_keeps_page (state : CUAState) (p : Page) :
  current_page state = Some p →
  wp (call_model E state)
     (λ evs r, Forall (λ q, q = p) (omap page_of evs) ∧
               ∀ conv u, r = Ok (conv, u) → u_current_page u = Some p).
Proof.
  intros Hpage. unfold_nodes. rewrite Hpage.
  repeat wp_step; cbv beta; cbn;
    (split; [by repeat constructor
            | first [by intros conv u [=] | by intros conv u [= <- <-]]]).
Qed.

Hypothesis quiet : ∀ h, page_opened E h = None.

Lemma handle_page_event_quiet s : handle_page_event (page_opened E) s = s.
Proof.
  unfold handle_page_event. rewrite quiet. by destruct (page_var s).
Qed.

Lemma page_ret {A} known (a : A) Φ :
  Φ [] (Ok a) → wp_page known known (mret a) Φ.
Proof. intros H s Hs. exists []. by rewrite app_nil_r. Qed.

Lemma page_lift {A} known (r : result A) Φ :
  Φ [] r → wp_page known known (lift r) Φ.
Proof. intros H s Hs. exists []. by rewrite app_nil_r. Qed.

Lemma page_emit known ev (Φ : list Event → result unit → Prop) :
  Φ [ev] (Ok tt) → wp_page known known (emit ev) Φ.
Proof.
  intros H s Hs. exists [ev]. split; [done|]. split; [done|].
  intros _. by destruct known.
Qed.

Lemma page_await {A} known ev (answer : list Event → result A) Φ :
  (∀ h, Φ [ev] (answer h)) →
  wp_page known known (await (page_opened E) ev answer) Φ.
Proof.
  intros H s Hs. exists [ev]. unfold await. cbn [fst snd].
  rewrite handle_page_event_quiet. split; [done|]. split; [done|].
  intros _. by destruct known.
Qed.

Lemma page_read p (Φ : list Event → result Page → Prop) :
  Φ [] (Ok p) → wp_page (Some p) (Some p) read_page Φ.
Proof.
  intros H s Hs. exists []. rewrite app_nil_r. unfold read_page.
  cbn in Hs. by rewrite Hs.
Qed.

Lemma page_bind_page known p (Φ : list Event → result unit → Prop) :
  Φ [] (Ok tt) → wp_page known (Some p) (bind_page p) Φ.
Proof. intros H s Hs. exists []. by rewrite app_nil_r. Qed.

Lemma page_bind {A B} before middle after (m : M B) (k : B → M A) Φ :
  wp_page before middle m
    (λ evs1 r,
       match r with
       | Ok b => wp_page middle after (k b) (λ evs2 r2, Φ (evs1 ++ evs2) r2)
       | Raise e => Φ evs1 (Raise e)
       end) →
  wp_page before after (m ≫= k) Φ.
Proof.
  intros Hm s Hs. destruct (Hm s Hs) as (evs1 & Htr1 & H1 & Hmid).
  rewrite bind_run. destruct (m s) as [[b|e] s1]; cbn [fst snd] in *.
  - destruct (H1 s1 (Hmid eq_refl)) as (evs2 & Htr2 & H2 & Hafter).
    exists (evs1 ++ evs2). split; [|done].
    by rewrite Htr2, Htr1, app_assoc.
  - exists evs1. by split.
Qed.

Lemma page_forget {A} before after (m : M A) Φ :
  wp_page before after m Φ → before = None → wp m Φ.
Proof.
  intros Hm -> s. destruct (Hm s I) as (evs & Htr & H & _). by exists evs.
Qed.

Ltac page_step :=
  cbv beta iota; cbn [default];
  lazymatch goal with
  | |- wp_page _ _ (mbind _ _) _ => eapply page_bind
  | |- wp_page _ _ (mret _) _ => apply page_ret
  | |- wp_page _ _ (lift _) _ => apply page_lift
  | |- wp_page _ _ (raise _) _ => apply page_lift
  | |- wp_page _ _ (emit _) _ => apply page_emit
  | |- wp_page _ _ (await _ _ _) _ => apply page_await; intros ?
  | |- wp_page _ _ read_page _ => apply page_read
  | |- wp_page _ _ (bind_page _) _ => apply page_bind_page
  | |- wp_page _ _ (if ?b then _ else _) _ => destruct b eqn:?
  | |- wp_page _ _ (match ?x with _ => _ end) _ => destruct x eqn:?
  | |- match ?r with Ok _ => _ | Raise _ => _ end => destruct r eqn:?
  | |- wp_page _ _ (let '(_, _) := ?p in _) _ => destruct p
  end.

Ltac same_page := cbv beta; cbn; repeat constructor.

Lemma computer_call_step_page p tm o :
  wp_page (Some p) (Some p) (computer_call_step E tm o)
    (λ evs _, Forall (λ q, q = p) (omap page_of evs)).
Proof.
  unfold computer_call_step, sleep, page_screenshot.
  repeat page_step; same_page.
Qed.

Lemma function_call_step_page p tm c :
  wp_page (Some p) (Some p) (function_call_step E tm c)
    (λ evs _, Forall (λ q, q = p) (omap page_of evs)).
Proof.
  unfold function_call_step, sleep.
  repeat page_step; same_page.
Qed.

Lemma for_each_page {A B} p (body : B → A → M B) (l : list A) (acc : B) :
  (∀ acc x, wp_page (Some p) (Some p) (body acc x)
              (λ evs _, Forall (λ q, q = p) (omap page_of evs))) →
  wp_page (Some p) (Some p) (for_each body l acc)
    (λ evs _, Forall (λ q, q = p) (omap page_of evs)).
Proof.
  intros Hbody. revert acc.
  induction l as [|x l IH]; intros acc; cbn [for_each].
  - apply page_ret. constructor.
  - eapply page_bind. intros s Hs.
    destruct (Hbody acc x s Hs) as (evs1 & Htr & H1 & Hpage).
    exists evs1. split; [done|]. split; [|done].
    destruct (body acc x s).1 as [acc'|e]; [|done].
    intros s' Hs'. destruct (IH acc' s' Hs') as (evs2 & Htr2 & H2 & Hpage2).
    exists evs2. split; [done|]. split; [|done].
    rewrite omap_app. by apply Forall_app.
Qed.

Lemma page_mono {A} before after (m : M A) (Φ Ψ : list Event → result A → Prop) :
  wp_page before after m Φ → (∀ evs r, Φ evs r → Ψ evs r) →
  wp_page before after m Ψ.
Proof.
  intros Hm Himp s Hs. destruct (Hm s Hs) as (evs & Htr & H & Hafter).
  exists evs. split; [done|]. split; [by apply Himp|done].
Qed.

Ltac all_same_page :=
  cbv beta; rewrite ?omap_app, ?Forall_app; cbn;
  repeat split; try assumption; repeat constructor.

(** When the driver reports no opened page, the action node sends every
    command (viewport, pointer actions, screenshots, function calls) to the
    current page of the state, and returns that page. *)
Theorem action_node_keeps_page (state : CUAState) (config : RunnableConfig)
    (p : Page) :
  current_page state = Some p →
  wp (take_browser_action E state config)
     (λ evs r, Forall (λ q, q = p) (omap page_of evs) ∧
               ∀ u, r = Ok u → u_current_page u = Some p).
Proof.
  intros Hpage. apply (page_forget None (Some p)); [|done].
  unfold take_browser_action. unfold_nodes. rewrite Hpage.
  unfold dispatch.
  repeat page_step.
  all: try (split; [same_page | by intros u [=]]).
  all: eapply page_mono;
    [apply for_each_page; intros; apply computer_call_step_page|].
  all: intros evs1 [tm1|e1] Hevs1; cbv beta iota;
    [|split; [all_same_page | by intros u [=]]].
  all: eapply page_mono;
    [apply for_each_page; intros; apply function_call_step_page|].
  all: intros evs2 [tm2|e2] Hevs2; cbv beta iota;
    [|split; [all_same_page | by intros u [=]]].
  all: repeat page_step.
  all: split; [all_same_page | by intros u [= <-]].
Qed.

End CurrentPage.

Section CurrentPageExamples.
Import Hyperbrowser.

Lemma pageless_browser_stops_both_nodes_witness :
  is_ok (take_browser_action example_env
           (pageless_state [HumanMessage []; first_reply]) example_config
           initial).1 = false.
Proof.
  destruct (pageless_browser_stops_both_nodes example_env
              (pageless_state [HumanMessage []; first_reply]) example_config
              1%nat {| contexts := [] |} eq_refl eq_refl eq_refl)
    as [_ Haction].
  destruct (Haction initial) as (evs & _ & Hfails & _). exact Hfails.
Defined.

Lemma model_node_keeps_page_witness :
  ∃ evs,
    trace (call_model example_env (bound_state [HumanMessage []])
             initial).2 = trace initial ++ evs ∧
    Forall (λ q, q = 7%nat) (omap page_of evs).
Proof.
  destruct (model_node_keeps_page example_env (bound_state [HumanMessage []])
              7%nat eq_refl initial) as (evs & Htrace & Hpages & _).
  by exists evs.
Defined.

Lemma action_node_keeps_page_witness :
  ∃ evs,
    trace (take_browser_action acting_env
             (bound_state [HumanMessage []; first_reply]) example_config
             initial).2 = trace initial ++ evs ∧
    Forall (λ q, q = 7%nat) (omap page_of evs).
Proof.
  destruct (action_node_keeps_page acting_env (λ h, eq_refl)
              (bound_state [HumanMessage []; first_reply]) example_config
              7%nat eq_refl initial) as (evs & Htrace & Hpages & _).
  by exists evs.
Defined.

End CurrentPageExamples.

(** ** The stream URL the client is told *)

Section Announcement.
Import Hyperbrowser.
Context (E : Env).

Ltac unfold_nodes :=
  unfold call_model, bind_browser, init_or_load_without_config, init_or_load,
    get_or_create, create_session, connect, page_set_viewport_size,
    page_screenshot, write_stream_url.

Lemma bind_browser_announced state config :
  wp (bind_browser E state config)
     (λ evs r, ∀ pw br url, r = Ok (pw, br, url) →
        announced (stream_url state) (omap stream_write evs) url).
Proof.
  unfold_nodes. unfold announced.
  destruct (opt_truthy (stream_url state)) eqn:Hknown;
    repeat wp_step; cbv beta; cbn; try (by intros pw br url [=]);
    by intros pw br url [= _ _ <-].
Qed.

(** Either node tells the client the stream URL it stores: when the state
    has none, a node that returns has written exactly one URL to the side
    channel, the one in its update, whatever the session reported; when the
    state has one, it has written nothing and returns that URL. *)
Theorem written_url_is_stored (state : CUAState) (config : RunnableConfig) :
  wp (call_model E state)
     (λ evs r, ∀ conv u, r = Ok (conv, u) →
        announced (stream_url state) (omap stream_write evs) (u_stream_url u)) ∧
  wp (take_browser_action E state config)
     (λ evs r, ∀ u, r = Ok u →
        announced (stream_url state) (omap stream_write evs) (u_stream_url u)).
Proof.
  split.
  - unfold_nodes. unfold announced.
    destruct (opt_truthy (stream_url state)) eqn:Hknown;
      repeat wp_step; cbv beta; cbn; try (by intros conv u [=]);
      by intros conv u [= <- <-].
  - unfold take_browser_action.
    destruct (requested_actions state) as [[tool_outputs calls]|e].
    2: { apply wp_lift_raise. by intros u [=]. }
    apply wp_lift_ok. cbv beta iota. apply wp_bind.
    eapply wp_mono; [apply bind_browser_announced|].
    intros evs1 [[[pw br] url]|e] Hurl; cbv beta iota; [|by intros u [=]].
    specialize (Hurl pw br url eq_refl).
    destruct (iter tool_outputs) as [outputs|e].
    2: { apply wp_lift_raise. by intros u [=]. }
    apply wp_lift_ok. apply wp_bind.
    eapply wp_mono;
      [apply (dispatch_silent E stream_write stream_write_unobserved)|].
    intros evs2 [tm|e] Hd%follows_nothing; cbv beta iota;
      [|by intros u [=]].
    repeat wp_step; intros u [= <-]; cbn [u_stream_url];
      by rewrite !omap_app, Hd, !app_nil_r.
Qed.

End Announcement.

(** ** What a finished run leaves *)

Section Finished.
Import Hyperbrowser.
Context (E : Env).

Ltac unfold_nodes :=
  unfold call_model, bind_browser, init_or_load_without_config, init_or_load,
    get_or_create, create_session, connect, page_set_viewport_size,
    page_screenshot, write_stream_url.

Lemma call_model_resumable state :
  wp (call_model E state)
     (λ evs r, ∀ conv u, r = Ok (conv, u) →
        invocations evs ≠ [] ∧ resumable (apply_update conv u)).
Proof.
  unfold_nodes.
  repeat wp_step; cbv beta; cbn; try (by intros conv u [=]);
    intros conv u [= <- <-]; by repeat split.
Qed.

Lemma take_browser_action_resumable state config :
  wp (take_browser_action E state config)
     (λ _ r, ∀ u, r = Ok u → resumable (apply_update (messages state) u)).
Proof.
  unfold take_browser_action.
  destruct (requested_actions state) as [[tool_outputs calls]|e].
  2: { apply wp_lift_raise. by intros u [=]. }
  apply wp_lift_ok. cbv beta iota. apply wp_bind.
  eapply (wp_mono _ (λ _ _, True)).
  { unfold_nodes. repeat wp_step; done. }
  intros evs1 [[[pw br] url]|e] _; cbv beta iota; [|by intros u [=]].
  destruct (iter tool_outputs) as [outputs|e].
  2: { apply wp_lift_raise. by intros u [=]. }
  apply wp_lift_ok. apply wp_bind.
  eapply wp_mono;
    [apply (dispatch_silent E invocation invocation_unobserved)|].
  intros evs2 [tm|e] _; cbv beta iota; [|by intros u [=]].
  repeat wp_step; intros u [= <-]; by repeat split.
Qed.

Lemma run_from_resumable config steps :
  ∀ node state,
    (node = END → resumable state) →
    wp (run_from E steps config node state)
       (λ _ r, ∀ final, r = Ok (Finished final) → resumable final).
Proof.
  induction steps as [|steps IH]; intros node state Hend.
  - destruct node; apply wp_ret; intros final [= <-]. by apply Hend.
  - destruct node; cbn [run_from].
    + apply wp_bind.
      eapply wp_mono; [apply call_model_resumable|].
      intros evs1 [[conv u]|e] Hstep; cbv beta iota; [|by intros final [=]].
      destruct (Hstep conv u eq_refl) as [_ Hres].
      apply wp_bind, wp_lift.
      destruct (take_action_or_end (apply_update conv u)) as [next|e];
        [|by intros final [=]].
      eapply wp_mono; [by apply IH|]. by intros evs2 r2 Hrest.
    + apply wp_bind.
      eapply wp_mono; [apply take_browser_action_resumable|].
      intros evs1 [u|e] Hstep; cbv beta iota; [|by intros final [=]].
      eapply wp_mono; [apply IH; intros _; by apply Hstep|].
      by intros evs2 r2 Hrest.
    + apply wp_ret. intros final [= <-]. by apply Hend.
Qed.

(** A run that finishes has asked the model at least once, and leaves a
    state that holds both connection handles and a current page, whatever
    the input state held. *)
Theorem finished_run_is_resumable (steps : nat) (config : RunnableConfig)
    (input : CUAState) :
  wp (graph E steps config input)
     (λ evs r, ∀ final, r = Ok (Finished final) →
        invocations evs ≠ [] ∧ resumable final).
Proof.
  unfold graph. destruct steps as [|steps].
  { apply wp_ret. by intros final [=]. }
  cbn [run_from]. apply wp_bind.
  eapply wp_mono; [apply call_model_resumable|].
  intros evs1 [[conv u]|e] Hstep; cbv beta iota; [|by intros final [=]].
  destruct (Hstep conv u eq_refl) as [Hasked Hres].
  apply wp_bind, wp_lift.
  destruct (take_action_or_end (apply_update conv u)) as [next|e];
    [|by intros final [=]].
  eapply wp_mono; [by apply (run_from_resumable config steps next)|].
  intros evs2 r2 Hrest final Hfinal. split; [|by apply Hrest].
  unfold invocations in *. rewrite omap_app.
  intros [Hnone _]%app_eq_nil. by apply Hasked.
Qed.

End Finished.

Section FinishedExamples.
Import Hyperbrowser.

Lemma finished_run_is_resumable_witness :
  ∃ final,
    (graph example_env 3 example_config fresh_input initial).1
      = Ok (Finished final) ∧
    resumable final.
Proof.
  destruct (finished_run_is_resumable example_env 3 example_config
              fresh_input initial) as (evs & _ & Hfinished).
  destruct (graph example_env 3 example_config fresh_input initial).1
    as [[final|next final]|e] eqn:Hrun;
    [|by vm_compute in Hrun|by vm_compute in Hrun].
  exists final. split; [done|]. by apply Hfinished.
Defined.

Lemma written_url_is_stored_witness :
  ∃ evs conv u,
    (call_model example_env fresh_input initial).1 = Ok (conv, u) ∧
    trace (call_model example_env fresh_input initial).2
      = trace initial ++ evs ∧
    omap stream_write evs = [u_stream_url u].
Proof.
  destruct (written_url_is_stored example_env fresh_input example_config)
    as [Hmodel _].
  destruct (Hmodel initial) as (evs & Htrace & Hstored).
  destruct (call_model example_env fresh_input initial).1
    as [[conv u]|e] eqn:Hrun; [|by vm_compute in Hrun].
  exists evs, conv, u. split; [done|]. split; [done|].
  exact (Hstored conv u eq_refl).
Defined.

End FinishedExamples.
